(** * Expense tracker: the ledger, its totals, the CSV bridge and persistence

    A shallow embedding of the logic of [src/pages/index.js] (and of its
    decorated twin, which has the same code with the two inline handlers
    named [handleAddTransaction] and [handleDeleteTransaction]).

    - JavaScript numbers are IEEE 754 binary64 values: [spec_float] with
      [prec = 53] and [emax = 1024], the specification the primitive floats of
      the standard library are checked against.  It computes, so every total
      below can be evaluated.
    - The builtins [parseFloat], [Number::toString], [JSON.stringify] and
      [JSON.parse] are variables of the sections that use them; executable
      decimal instances are given to evaluate the handlers on examples.
    - Amounts are numbers, as the two handlers that build records store
      them.
    - A CSV document is kept at the level papaparse hands it over: a list of
      lines, each a list of fields (quoting and line ends are the library's).
    - The accumulator [{}] of the category breakdown is an ordinary object:
      own properties in insertion order, over [Object.prototype].

    Part I holds the embedding, Part II the lemmas and theorems. *)

From Stdlib Require Import ZArith List Bool Ascii Lia.
From Stdlib Require Import Floats.SpecFloat.
From stdpp Require Import gmap strings pretty.

Import ListNotations.
Local Open Scope Z_scope.

(** * Part I: the embedding *)

(** ** JavaScript numbers *)

Module Number.

Definition number : Type := spec_float.

Definition prec : Z := 53.
Definition emax : Z := 1024.
Definition emin : Z := SpecFloat.emin prec emax.

(** The literal [0], [NaN] and [Infinity]. *)
Definition zero : number := S754_zero false.
Definition NaN : number := S754_nan.
Definition Infinity : number := S754_infinity false.

(** The double nearest to the integer [z], and to the decimal [m / 10^k]
    (one rounding, ties to even). *)
Definition of_Z (z : Z) : number := binary_normalize prec emax z 0 false.

Definition of_decimal (m : Z) (k : nat) : number :=
  match m, k with
  | Z0, _ => zero
  | _, O => of_Z m
  | Zpos p, S _ =>
      SFdiv prec emax (S754_finite false p 0)
        (S754_finite false (Pos.pow 10 (Pos.of_nat k)) 0)
  | Zneg p, S _ =>
      SFdiv prec emax (S754_finite true p 0)
        (S754_finite false (Pos.pow 10 (Pos.of_nat k)) 0)
  end.

(** [x + y], [x < y], [x > y], [x <= y], [x >= y], [Math.abs(x)]. *)
Definition add (x y : number) : number := SFadd prec emax x y.
Definition lt (x y : number) : bool := SFltb x y.
Definition gt (x y : number) : bool := SFltb y x.
Definition le (x y : number) : bool := SFleb x y.
Definition ge (x y : number) : bool := SFleb y x.
Definition abs (x : number) : number := SFabs x.

Definition isNaN (x : number) : bool :=
  match x with S754_nan => true | _ => false end.

(** ToBoolean on a number: [0], [-0] and [NaN] are falsy. *)
Definition truthy (x : number) : bool :=
  match x with
  | S754_zero _ | S754_nan => false
  | _ => true
  end.

(** The values a double can take (mantissa and exponent in range). *)
Definition valid (x : number) : bool := valid_binary prec emax x.


End Number.

Import Number.

(** ** Transactions and the ledger *)

(** A record [{ description, amount, category }], with its three keys in
    this order, as both handlers build it.  [description] is what the form
    held or what the CSV row had under that header; [None] is the key
    holding [undefined], as the import leaves it for a row without that
    column.  A record that lacks the key (what [JSON.stringify] and
    [JSON.parse] make of such a record across a reload) is not told apart
    from it: the statements on export are about records whose description is
    a string, or about ledgers imported since the page was opened. *)
Module Tx.

Record t : Type := make {
  description : option string;
  amount : number;
  category : string
}.

End Tx.

Abbreviation transaction := Tx.t.

Abbreviation ledger := (list transaction).

(** ** The component state: the five [useState] cells *)

Record state : Type := mkState {
  transactions : ledger;
  description : string;
  amount : string;
  category : string;
  darkMode : bool
}.

(** [useState([])], [useState("")], [useState("")], [useState("Other")],
    [useState(false)]. *)
Definition initial_state : state :=
  mkState [] "" "" "Other" false.

(** ** Totals *)

(** [transactions.filter((tx) => tx.amount > 0).reduce((acc, tx) => acc + tx.amount, 0)] *)
Definition income (transactions : ledger) : number :=
  fold_left (fun acc tx => add acc (Tx.amount tx))
    (List.filter (fun tx => gt (Tx.amount tx) zero) transactions) zero.

(** [transactions.filter((tx) => tx.amount < 0).reduce((acc, tx) => acc + tx.amount, 0)] *)
Definition expenses (transactions : ledger) : number :=
  fold_left (fun acc tx => add acc (Tx.amount tx))
    (List.filter (fun tx => lt (Tx.amount tx) zero) transactions) zero.

(** [income + expenses] *)
Definition balance (transactions : ledger) : number :=
  add (income transactions) (expenses transactions).

(** ** Objects used as dictionaries *)

Module Obj.

(** What a property of the accumulator can hold or yield: nothing, a number,
    a function or object inherited from [Object.prototype], or the text such
    an inherited value turned into under [+=], followed by the amounts that
    were appended to it. *)
Inductive value : Type :=
| VUndefined
| VNumber (x : number)
| VInherited (name : string)
| VText (name : string) (appended : list number).

(** Own enumerable properties, in insertion order. *)
Definition object : Type := list (string * value).

(** The property names every plain object inherits. *)
Definition Object_prototype : list string :=
  [ "constructor"; "__defineGetter__"; "__defineSetter__"; "hasOwnProperty";
    "__lookupGetter__"; "__lookupSetter__"; "isPrototypeOf";
    "propertyIsEnumerable"; "toString"; "valueOf"; "__proto__";
    "toLocaleString" ]%string.

Definition inherited (k : string) : bool :=
  existsb (String.eqb k) Object_prototype.

Fixpoint own (o : object) (k : string) : option value :=
  match o with
  | [] => None
  | (k', v) :: o' => if String.eqb k' k then Some v else own o' k
  end.

(** [o[k]]: the own property, else the inherited one, else [undefined]. *)
Definition get (o : object) (k : string) : value :=
  match own o k with
  | Some v => v
  | None => if inherited k then VInherited k else VUndefined
  end.

(** ToBoolean: functions, objects and non-empty strings are truthy. *)
Definition truthy (v : value) : bool :=
  match v with
  | VUndefined => false
  | VNumber x => Number.truthy x
  | VInherited _ | VText _ _ => true
  end.

(** [v + x] for a number [x]: numeric addition on numbers, concatenation
    once the left operand is not a number. *)
Definition plus (v : value) (x : number) : value :=
  match v with
  | VUndefined => VNumber NaN
  | VNumber y => VNumber (add y x)
  | VInherited name => VText name [x]
  | VText name xs => VText name (xs ++ [x])
  end.

Fixpoint define (o : object) (k : string) (v : value) : object :=
  match o with
  | [] => [(k, v)]
  | (k', v') :: o' =>
      if String.eqb k' k then (k, v) :: o' else (k', v') :: define o' k v
  end.

(** [o[k] = v] for a number or a string [v]: writes the own property, except
    under ["__proto__"], whose inherited setter ignores what is not an
    object. *)
Definition set (o : object) (k : string) (v : value) : object :=
  if String.eqb k "__proto__" then o else define o k v.

(** Array indices: canonical decimal numerals below [2^32 - 1]. *)
Definition digit (a : Ascii.ascii) : option N :=
  let n := Ascii.N_of_ascii a in
  if (48 <=? n)%N && (n <=? 57)%N then Some (n - 48)%N else None.

Fixpoint numeral (s : string) (acc : N) : option N :=
  match s with
  | EmptyString => Some acc
  | String a s' =>
      match digit a with
      | Some d => numeral s' (10 * acc + d)%N
      | None => None
      end
  end.

Definition array_index (k : string) : option N :=
  match k with
  | EmptyString => None
  | String a rest =>
      match numeral k 0 with
      | Some n =>
          if (negb (Ascii.eqb a "0"%char) || String.eqb rest "")
             && (n <? 4294967295)%N
          then Some n else None
      | None => None
      end
  end.

Fixpoint insert_index (e : N * string) (l : list (N * string)) : list (N * string) :=
  match l with
  | [] => [e]
  | e' :: l' => if (fst e <=? fst e')%N then e :: l else e' :: insert_index e l'
  end.

Definition index_keys (o : object) : list (N * string) :=
  fold_right insert_index []
    (omap (fun p => match array_index (fst p) with
                    | Some n => Some (n, fst p)
                    | None => None
                    end) o).

Definition string_keys (o : object) : list string :=
  List.filter (fun k => match array_index k with Some _ => false | None => true end)
    (map fst o).

(** [Object.keys(o)]: array indices in ascending order, then the other
    names in insertion order. *)
Definition keys (o : object) : list string :=
  map snd (index_keys o) ++ string_keys o.

End Obj.

(** ** Category breakdown *)

(** The reducer of [expenseByCategory]:
    [if (acc[tx.category]) acc[tx.category] += Math.abs(tx.amount);
     else acc[tx.category] = Math.abs(tx.amount); return acc;] *)
Definition expense_reducer (acc : Obj.object) (tx : transaction) : Obj.object :=
  if Obj.truthy (Obj.get acc (Tx.category tx))
  then Obj.set acc (Tx.category tx)
         (Obj.plus (Obj.get acc (Tx.category tx)) (abs (Tx.amount tx)))
  else Obj.set acc (Tx.category tx) (Obj.VNumber (abs (Tx.amount tx))).

(** [transactions.filter((tx) => tx.amount < 0).reduce(..., {})] *)
Definition expenseByCategory (transactions : ledger) : Obj.object :=
  fold_left expense_reducer
    (List.filter (fun tx => lt (Tx.amount tx) zero) transactions) [].

Record chart_entry : Type := mkEntry {
  name : string;
  value : Obj.value
}.

(** [Object.keys(expenseByCategory).map((key) => ({ name: key, value: expenseByCategory[key] }))] *)
Definition chartData (transactions : ledger) : list chart_entry :=
  map (fun key => mkEntry key (Obj.get (expenseByCategory transactions) key))
    (Obj.keys (expenseByCategory transactions)).

(** The entries the chart holds for a category. *)
Definition chart_entries (data : list chart_entry) (c : string) : list Obj.value :=
  map value (List.filter (fun e => String.eqb (name e) c) data).

(** ** CSV documents *)

Module Papa.

(** A parsed line is its list of fields; a document is its list of lines. *)
Definition line : Type := list string.
Definition document : Type := list line.

(** A data row under [header: true], seen through the three properties the
    import reads; a property is [None] when the line is too short for its
    column or the header does not have it. *)
Record row : Type := mkRow {
  row_description : option string;
  row_amount : option string;
  row_category : option string
}.

(** The field of [l] in the column headed [name] (the first such column;
    the header that the export writes has three distinct names). *)
Fixpoint field (header l : line) (name : string) : option string :=
  match header, l with
  | h :: header', v :: l' =>
      if String.eqb h name then Some v else field header' l' name
  | _, _ => None
  end.

(** [Papa.parse(file, { header: true })]: the first line names the columns,
    every further line is a row. *)
Definition parse (doc : document) : list row :=
  match doc with
  | [] => []
  | header :: lines =>
      map (fun l => mkRow (field header l "description")
                          (field header l "amount")
                          (field header l "category")) lines
  end.

Section Unparse.

Variable numberToString : number -> string.

(** A cell: [undefined] is written as the empty field, a number by its
    [toString], a string as it is. *)
Definition cell_of_description (d : option string) : string :=
  match d with Some s => s | None => "" end.

(** [Papa.unparse(transactions)]: nothing for the empty array; otherwise
    the keys of the first record as the header line, then one line per
    record.  The header written here is the one of a first record that has
    its three keys, in this order: every record built by the handlers has
    them, and so has every stored record whose description is a string.  A
    first record reloaded from storage after its description was
    [undefined] has lost that key, and the library then writes two columns;
    that case is outside this definition. *)
Definition unparse (transactions : ledger) : document :=
  match transactions with
  | [] => []
  | _ :: _ =>
      ["description"; "amount"; "category"]%string
      :: map (fun tx => [ cell_of_description (Tx.description tx);
                          numberToString (Tx.amount tx);
                          Tx.category tx ]) transactions
  end.

End Unparse.

End Papa.

(** ** Event handlers *)

Section Handlers.

Variable parseFloat : string -> number.
Variable numberToString : number -> string.

(** ToString of the argument of [parseFloat]: [undefined] reads
    ["undefined"]. *)
Definition ToString (field : option string) : string :=
  match field with Some s => s | None => "undefined" end.

(** [tx.category || "Other"] *)
Definition category_or_Other (field : option string) : string :=
  match field with
  | Some c => if String.eqb c "" then "Other" else c
  | None => "Other"
  end.

(** The mapping of [handleImportCSV]:
    [{ description: tx.description, amount: parseFloat(tx.amount),
       category: tx.category || "Other" }] *)
Definition imported_transaction (tx : Papa.row) : transaction :=
  Tx.make (Papa.row_description tx)
          (parseFloat (ToString (Papa.row_amount tx)))
          (category_or_Other (Papa.row_category tx)).

(** [handleImportCSV]: [file] is [e.target.files[0]], parsed.  Without a
    file the handler returns; otherwise [setTransactions(importedTransactions)]. *)
Definition handleImportCSV (file : option Papa.document) (st : state) : state :=
  match file with
  | None => st
  | Some doc =>
      mkState (map imported_transaction (Papa.parse doc))
              (description st) (amount st) (category st) (darkMode st)
  end.

(** [handleExportCSV]: the document handed to the download. *)
Definition handleExportCSV (st : state) : Papa.document :=
  Papa.unparse numberToString (transactions st).

(** [handleAddTransaction] (the form's [onSubmit]):
    [if (!description || !amount) return;
     setTransactions([...transactions, { description, amount: parseFloat(amount), category }]);
     setDescription(""); setAmount(""); setCategory("Other");] *)
Definition handleAddTransaction (st : state) : state :=
  if String.eqb (description st) "" || String.eqb (amount st) ""
  then st
  else mkState
         (transactions st
          ++ [Tx.make (Some (description st)) (parseFloat (amount st)) (category st)])
         "" "" "Other" (darkMode st).

(** [array.filter((_, i) => keep i)], the index counted from [i]. *)
Fixpoint filter_index {A : Type} (keep : Z -> bool) (l : list A) (i : Z) : list A :=
  match l with
  | [] => []
  | x :: l' =>
      if keep i then x :: filter_index keep l' (i + 1)
      else filter_index keep l' (i + 1)
  end.

(** [handleDeleteTransaction]:
    [setTransactions(transactions.filter((_, i) => i !== index))] *)
Definition handleDeleteTransaction (index : Z) (st : state) : state :=
  mkState (filter_index (fun i => negb (i =? index)) (transactions st) 0)
          (description st) (amount st) (category st) (darkMode st).

(** [toggleDarkMode] *)
Definition toggleDarkMode (st : state) : state :=
  mkState (transactions st) (description st) (amount st) (category st)
          (negb (darkMode st)).

(** The events of the page: the three [onChange] of the form, its submit,
    the delete button of row [index], the file picker, the export button and
    the dark-mode toggle. *)
Inductive event : Type :=
| SetDescription (v : string)
| SetAmount (v : string)
| SetCategory (v : string)
| AddTransaction
| DeleteTransaction (index : Z)
| ImportCSV (file : option Papa.document)
| ExportCSV
| ToggleDarkMode.

Definition handle (e : event) (st : state) : state :=
  match e with
  | SetDescription v =>
      mkState (transactions st) v (amount st) (category st) (darkMode st)
  | SetAmount v =>
      mkState (transactions st) (description st) v (category st) (darkMode st)
  | SetCategory v =>
      mkState (transactions st) (description st) (amount st) v (darkMode st)
  | AddTransaction => handleAddTransaction st
  | DeleteTransaction index => handleDeleteTransaction index st
  | ImportCSV file => handleImportCSV file st
  | ExportCSV => st
  | ToggleDarkMode => toggleDarkMode st
  end.

(** Whether the handler calls [setTransactions] (always with a fresh
    array, so the effect that depends on [transactions] runs). *)
Definition sets_transactions (e : event) (st : state) : bool :=
  match e with
  | AddTransaction =>
      negb (String.eqb (description st) "" || String.eqb (amount st) "")
  | DeleteTransaction _ => true
  | ImportCSV (Some _) => true
  | _ => false
  end.

(** A sequence of events, handled one after the other. *)
Definition run (events : list event) (st : state) : state :=
  fold_left (fun st e => handle e st) events st.

End Handlers.

(** Filling the form with a Coffee expense and submitting, then the same
    with a Paycheck. *)
Definition coffee_then_paycheck : list event :=
  [ SetDescription "Coffee"; SetAmount "-4.50"; SetCategory "Food";
    AddTransaction;
    SetDescription "Paycheck"; SetAmount "2000"; SetCategory "Salary";
    AddTransaction ]%string.

(** Sample records: [-4.5], [2000] and [-850.25]. *)
Definition coffee : transaction :=
  Tx.make (Some "Coffee"%string) (of_decimal (-450) 2) "Food".
Definition paycheck : transaction :=
  Tx.make (Some "Paycheck"%string) (of_Z 2000) "Salary".
Definition rent : transaction :=
  Tx.make (Some "Flat"%string) (of_decimal (-85025) 2) "Rent".

Definition sample_state : state :=
  mkState [coffee; paycheck; rent] "" "" "Other" false.

(** ** Persistence *)

(** [localStorage]. *)
Abbreviation storage := (gmap string string).

Record world : Type := mkWorld {
  app : state;
  localStorage : storage
}.

Section Persistence.

Variable parseFloat : string -> number.
Variable JSON_stringify : ledger -> string.
(** Reading the stored text.  [Some l] when [JSON.parse] gives an array of
    records of the shape the page writes and can show: a description, a
    numeric amount, a string category.  [None] otherwise: [JSON.parse]
    throws, or it gives a value the page cannot show (one that is not an
    array, on which [transactions.filter] throws; a record whose amount is
    [null], as a stored [NaN] comes back, on which [tx.amount.toFixed]
    throws), or an array of records of another shape, which ledgers do not
    represent. *)
Variable JSON_parse : string -> option ledger.

(** [localStorage.setItem("transactions", JSON.stringify(transactions))] *)
Definition save_transactions (st : state) (sto : storage) : storage :=
  <["transactions"%string := JSON_stringify (transactions st)]> sto.

(** [localStorage.setItem("darkMode", darkMode)] *)
Definition save_darkMode (st : state) (sto : storage) : storage :=
  <["darkMode"%string := (if darkMode st then "true" else "false")%string]> sto.

(** The effects after a render: each runs when its dependency changed. *)
Definition run_effects (transactions_changed darkMode_changed : bool)
    (st : state) (sto : storage) : storage :=
  let sto := if transactions_changed then save_transactions st sto else sto in
  if darkMode_changed then save_darkMode st sto else sto.

(** One event: the handler, the render, the effects. *)
Definition dispatch (e : event) (w : world) : world :=
  let st := handle parseFloat e (app w) in
  mkWorld st
    (run_effects (sets_transactions e (app w))
                 (negb (Bool.eqb (darkMode st) (darkMode (app w))))
                 st (localStorage w)).

(** The load effect:
    [if (savedTransactions) setTransactions(JSON.parse(savedTransactions));
     if (savedDarkMode === "true") setDarkMode(true);] *)
Definition loaded_state (sto : storage) : option (state * bool) :=
  let dark :=
    match sto !! "darkMode"%string with
    | Some v => String.eqb v "true"
    | None => false
    end in
  match sto !! "transactions"%string with
  | Some saved =>
      if String.eqb saved "" then Some (mkState [] "" "" "Other" dark, false)
      else match JSON_parse saved with
           | Some l => Some (mkState l "" "" "Other" dark, true)
           | None => None
           end
  | None => Some (mkState [] "" "" "Other" dark, false)
  end.

(** Mounting: the first render has the initial state; its three effects run
    in order (load, save transactions, save dark mode), then the render that
    the load asked for runs the save effects whose dependency changed.
    [Some w] is the page shown with the world [w].  [None] says no more than
    that the stored text is not a ledger ([JSON_parse] above): what the page
    does then, and what it leaves in the storage, is not described. *)
Definition mount (sto : storage) : option world :=
  match loaded_state sto with
  | Some (st, transactions_set) =>
      let sto1 := run_effects true true initial_state sto in
      Some (mkWorld st (run_effects transactions_set (darkMode st) st sto1))
  | None => None
  end.

Inductive step : world -> world -> Prop :=
| step_dispatch (e : event) (w : world) : step w (dispatch e w).

Inductive reachable : world -> Prop :=
| reachable_mount (sto : storage) (w : world) :
    mount sto = Some w -> reachable w
| reachable_step (w w' : world) :
    reachable w -> step w w' -> reachable w'.

End Persistence.

(** ** Decimal instances of the builtins

    Executable readings of [parseFloat], [Number::toString] and
    [JSON.stringify], used to evaluate the handlers on concrete input. *)

Module Decimal.

Definition is_space (a : ascii) : bool :=
  let n := N_of_ascii a in
  (n =? 32)%N || ((9 <=? n)%N && (n <=? 13)%N).

Fixpoint skip_spaces (s : string) : string :=
  match s with
  | String a s' => if is_space a then skip_spaces s' else s
  | EmptyString => s
  end.

(** The digits at the head of [s], accumulated onto [acc]: the value, how
    many digits were read, and the rest. *)
Fixpoint read_digits (s : string) (acc : N) (count : nat) : N * nat * string :=
  match s with
  | String a s' =>
      match Obj.digit a with
      | Some d => read_digits s' (10 * acc + d)%N (S count)
      | None => (acc, count, s)
      end
  | EmptyString => (acc, count, s)
  end.

(** The exponent part [e±ddd] at the head of [s], or [0] without one. *)
Definition read_exponent (s : string) : Z :=
  match s with
  | String a s' =>
      if (N_of_ascii a =? 101)%N || (N_of_ascii a =? 69)%N then
        let '(negative, s'') :=
          match s' with
          | String b r =>
              if (N_of_ascii b =? 45)%N then (true, r)
              else if (N_of_ascii b =? 43)%N then (false, r)
              else (false, s')
          | EmptyString => (false, s')
          end in
        let '(e, n, _) := read_digits s'' 0 0 in
        match n with
        | O => 0
        | S _ => if negative then - Z.of_N e else Z.of_N e
        end
      else 0
  | EmptyString => 0
  end.

(** The double nearest to [±m * 10^e]. *)
Definition scale (negative : bool) (m : N) (e : Z) : number :=
  match m with
  | N0 => S754_zero negative
  | Npos p =>
      match e with
      | Zneg k =>
          SFdiv prec emax (S754_finite negative p 0)
            (S754_finite false (Pos.pow 10 k) 0)
      | Zpos k => binary_round prec emax negative (p * Pos.pow 10 k) 0
      | Z0 => binary_round prec emax negative p 0
      end
  end.

(** [parseFloat]: leading white space, a sign, then the longest decimal
    literal ([Infinity], digits with an optional fraction and exponent);
    [NaN] when there is none.  The white space skipped is the ASCII one
    (space, tab, line feed, vertical tab, form feed, carriage return); the
    builtin also skips the non-ASCII space and line-end characters, so the
    two agree on the strings that do not begin with one of those. *)
Definition parseFloat (s : string) : number :=
  let s := skip_spaces s in
  let '(negative, s) :=
    match s with
    | String a r =>
        if (N_of_ascii a =? 45)%N then (true, r)
        else if (N_of_ascii a =? 43)%N then (false, r)
        else (false, s)
    | EmptyString => (false, s)
    end in
  if String.prefix "Infinity" s then S754_infinity negative
  else
    let '(i, ni, s1) := read_digits s 0 0 in
    let '(m, nf, s2) :=
      match s1 with
      | String a r =>
          if (N_of_ascii a =? 46)%N then read_digits r i 0 else (i, O, s1)
      | EmptyString => (i, O, s1)
      end in
    match (ni + nf)%nat with
    | O => NaN
    | S _ => scale negative m (read_exponent s2 - Z.of_nat nf)
    end.

Fixpoint strip_zeros (rev_digits : list ascii) : list ascii :=
  match rev_digits with
  | a :: l => if (N_of_ascii a =? 48)%N then strip_zeros l else rev_digits
  | [] => []
  end.

(** The numeral of [n / 10^k], without trailing zeros. *)
Definition fixed_point (n : N) (k : nat) : string :=
  let digits := String.list_ascii_of_string (pretty n) in
  let digits := repeat "0"%char (S k - length digits)%nat ++ digits in
  let whole := firstn (length digits - k)%nat digits in
  let fraction := rev (strip_zeros (rev (skipn (length digits - k)%nat digits))) in
  match fraction with
  | [] => String.string_of_list_ascii whole
  | _ :: _ => String.string_of_list_ascii (whole ++ "."%char :: fraction)
  end.

(** The exact decimal value of a double.  It is what [Number::toString]
    prints for the doubles whose exact value has a short decimal numeral (at
    most 15 significant digits, magnitude from [1e-6] to below [1e21]), such
    as [-4.5] or [2500].  For the other doubles the builtin prints the
    shortest numeral that reads back to the same double, or uses an
    exponent, and this printer does not: it is applied below to amounts of
    the first kind only. *)
Definition numberToString (x : number) : string :=
  match x with
  | S754_nan => "NaN"
  | S754_infinity s => if s then "-Infinity" else "Infinity"
  | S754_zero _ => "0"
  | S754_finite s m e =>
      String.append (if s then "-" else "")
        (match e with
         | Zneg k => fixed_point (Npos (m * Pos.pow 5 k)) (Pos.to_nat k)
         | _ => pretty (Npos m * 2 ^ Z.to_N e)%N
         end)
  end.

Definition quote : string := String (ascii_of_nat 34) EmptyString.
Definition backslash : string := String (ascii_of_nat 92) EmptyString.

Definition hex_digit (n : N) : ascii :=
  ascii_of_N (if (n <? 10)%N then 48 + n else 87 + n)%N.

Definition escape_char (a : ascii) : string :=
  let n := N_of_ascii a in
  if (n =? 34)%N then String.append backslash quote
  else if (n =? 92)%N then String.append backslash backslash
  else if (n =? 8)%N then String.append backslash "b"
  else if (n =? 9)%N then String.append backslash "t"
  else if (n =? 10)%N then String.append backslash "n"
  else if (n =? 12)%N then String.append backslash "f"
  else if (n =? 13)%N then String.append backslash "r"
  else if (n <? 32)%N then
    String.append backslash
      (String "u" (String "0" (String "0"
         (String (hex_digit (n / 16)) (String (hex_digit (n mod 16)) EmptyString)))))
  else String a EmptyString.

Fixpoint escape (s : string) : string :=
  match s with
  | String a s' => String.append (escape_char a) (escape s')
  | EmptyString => EmptyString
  end.

Definition JSON_string (s : string) : string :=
  String.append quote (String.append (escape s) quote).

(** A number in JSON: [NaN] and the infinities are written [null]. *)
Definition JSON_number (x : number) : string :=
  match x with
  | S754_nan | S754_infinity _ => "null"
  | _ => numberToString x
  end.

Definition JSON_property (key value : string) : string :=
  String.append (JSON_string key) (String.append ":" value).

(** A record; a property that is [undefined] is left out. *)
Definition JSON_transaction (tx : transaction) : string :=
  String.append "{"
    (String.append
       (String.concat ","
          ((match Tx.description tx with
            | Some d => [JSON_property "description" (JSON_string d)]
            | None => []
            end)
           ++ [ JSON_property "amount" (JSON_number (Tx.amount tx));
                JSON_property "category" (JSON_string (Tx.category tx)) ]))
       "}").

(** [JSON.stringify] on a ledger. *)
Definition JSON_stringify (transactions : ledger) : string :=
  String.append "["
    (String.append (String.concat "," (map JSON_transaction transactions)) "]").

End Decimal.

(** ** Sign classes of numbers, used to state the results *)

(** Zero, or a finite or infinite number above it; not [NaN]. *)
Definition nonneg (x : number) : Prop :=
  match x with
  | S754_zero _ => True
  | S754_infinity s | S754_finite s _ _ => s = false
  | S754_nan => False
  end.

Definition nonpos (x : number) : Prop :=
  match x with
  | S754_zero _ => True
  | S754_infinity s | S754_finite s _ _ => s = true
  | S754_nan => False
  end.

Definition positive_number (x : number) : Prop :=
  match x with
  | S754_infinity s | S754_finite s _ _ => s = false
  | _ => False
  end.

Definition negative_number (x : number) : Prop :=
  match x with
  | S754_infinity s | S754_finite s _ _ => s = true
  | _ => False
  end.

(** ** Vocabulary of the statements *)

(** The result of rounding a non-negative mantissa is a zero, a finite
    number or an infinity of the requested sign; never [NaN]. *)
Definition has_sign (sx : bool) (x : number) : Prop :=
  match x with
  | S754_zero s | S754_infinity s | S754_finite s _ _ => s = sx
  | S754_nan => False
  end.

(** A finite number with exponent in range, or an infinity, of sign [sx]. *)
Definition nonzero_of_sign (sx : bool) (x : number) : Prop :=
  match x with
  | S754_infinity s => s = sx
  | S754_finite s _ e => s = sx /\ emin <= e
  | _ => False
  end.

(** The ledger without its [NaN]-amount records. *)
Definition without_NaN (transactions : ledger) : ledger :=
  List.filter (fun tx => negb (isNaN (Tx.amount tx))) transactions.

(** The expense records of category [c], and the sum of their absolute
    values in ledger order. *)
Definition expenses_in (c : string) (transactions : ledger) : ledger :=
  List.filter (fun tx => lt (Tx.amount tx) zero && String.eqb (Tx.category tx) c)
    transactions.

Definition category_total (c : string) (transactions : ledger) : number :=
  fold_left add (map (fun tx => abs (Tx.amount tx)) (expenses_in c transactions))
    zero.

(** What one more expense of category [c] makes of the entry of [c]. *)
Definition bump (e : option Obj.value) (x : number) : option Obj.value :=
  Some (Obj.VNumber match e with
                    | Some (Obj.VNumber v) => add v x
                    | _ => x
                    end).

(** The entry of [c] is absent, or a number that is not zero. *)
Definition entry_ok (e : option Obj.value) : Prop :=
  e = None \/ exists v, e = Some (Obj.VNumber v) /\ nonzero_of_sign false v.


Section Vocabulary.

Variable parseFloat : string -> number.
Variable numberToString : number -> string.
Variable JSON_stringify : ledger -> string.

(** What the import makes of one row. *)
Definition imported_from (r : Papa.row) (tx : transaction) : Prop :=
  Tx.description tx = Papa.row_description r
  /\ Tx.amount tx = parseFloat (ToString (Papa.row_amount r))
  /\ (forall c, Papa.row_category r = Some c -> c <> ""%string ->
                Tx.category tx = c)
  /\ (Papa.row_category r = None \/ Papa.row_category r = Some ""%string ->
      Tx.category tx = "Other"%string).



(** The dark mode that the load effect reads: on exactly when the storage
    holds ["true"] under ["darkMode"]. *)
Definition saved_dark (sto : storage) : bool :=
  match sto !! "darkMode"%string with
  | Some v => String.eqb v "true"
  | None => false
  end.

(** The stored ledger is the serialization of the one in memory. *)
Definition persisted (w : world) : Prop :=
  localStorage w !! "transactions"%string
  = Some (JSON_stringify (transactions (app w))).

End Vocabulary.

(** ** Sample ledgers *)

(** A record whose amount failed to parse. *)
Definition unparsed_record : transaction :=
  Tx.make (Some "Coffee"%string) NaN "Food"%string.

(** An expense filed under a name that every object inherits, as an import
    can bring it in. *)
Definition inherited_name_ledger : ledger :=
  [Tx.make (Some "Fee"%string) (of_decimal (-450) 2) "constructor"].

Definition proto_ledger : ledger :=
  [Tx.make (Some "Fee"%string) (of_decimal (-450) 2) "__proto__"].


(** The page mounted over an empty storage, then a Coffee expense entered. *)
Definition coffee_world : world :=
  fold_left
    (fun w e => dispatch Decimal.parseFloat Decimal.JSON_stringify e w)
    [ SetDescription "Coffee"; SetAmount "-4.50"; SetCategory "Food";
      AddTransaction ]%string
    (mkWorld initial_state
       (run_effects Decimal.JSON_stringify true true initial_state ∅)).

(** ** The view *)

(** The [<option>] values of the category [<select>]. *)
Definition category_options : list string :=
  [ "Other"; "Food"; "Rent"; "Transport"; "Entertainment"; "Salary" ]%string.

(** An event as the page can raise it: the [<select>] only offers its
    options (the text inputs and the file picker take anything). *)
Definition from_the_page (e : event) : Prop :=
  match e with
  | SetCategory v => In v category_options
  | _ => True
  end.

(** The class of the amount of a row:
    [tx.amount < 0 ? "text-red-500" : "text-green-500"] *)
Definition amount_class (tx : transaction) : string :=
  if lt (Tx.amount tx) zero then "text-red-500" else "text-green-500".

(** [chartData.length > 0 && (...)]: whether the pie chart is rendered. *)
Definition chart_rendered (transactions : ledger) : bool :=
  (0 <? length (chartData transactions))%nat.

(** [const COLORS = [...]] *)
Definition COLORS : list string :=
  [ "#0088FE"; "#00C49F"; "#FFBB28"; "#FF8042"; "#AA336A"; "#33AA99" ]%string.

(** [COLORS[index % COLORS.length]]; [None] is [undefined]. *)
Definition palette_fill (index : nat) : option string :=
  COLORS !! (index mod length COLORS)%nat.

(** [chartData.map((entry, index) => <Cell fill={COLORS[index % COLORS.length]} />)] *)
Definition palette_fills (data : list chart_entry) : list (option string) :=
  imap (fun index _ => palette_fill index) data.

(** [const CATEGORY_COLORS = { Food: ..., ..., Other: ... }] of the
    decorated page. *)
Definition CATEGORY_COLORS : list (string * string) :=
  [ ("Food", "#FF6384"); ("Rent", "#36A2EB"); ("Transport", "#FFCE56");
    ("Entertainment", "#AA336A"); ("Salary", "#33AA99");
    ("Other", "#FF8042") ]%string.

Fixpoint colour_of (table : list (string * string)) (k : string) : option string :=
  match table with
  | [] => None
  | (k', c) :: table' => if String.eqb k' k then Some c else colour_of table' k
  end.

(** What a [fill] can be: a colour string, or the function or object that
    the table inherits under that name. *)
Inductive fill : Type :=
| Colour (c : string)
| InheritedValue (name : string).

(** [CATEGORY_COLORS[entry.name] || "#8884d8"] *)
Definition category_fill (n : string) : fill :=
  match colour_of CATEGORY_COLORS n with
  | Some c => Colour c
  | None => if Obj.inherited n then InheritedValue n else Colour "#8884d8"
  end.

(** [chartData.map((entry) => <Cell fill={CATEGORY_COLORS[entry.name] || "#8884d8"} />)] *)
Definition category_fills (data : list chart_entry) : list fill :=
  map (fun entry => category_fill (name entry)) data.

(** A reading of [JSON.parse] that knows the one text the sample world
    stores. *)
Definition coffee_parse (s : string) : option ledger :=
  if String.eqb s (Decimal.JSON_stringify [coffee]) then Some [coffee] else None.

(** The ledger has no blank category and the category cell holds one of
    the options. *)
Definition categories_in_order (st : state) : Prop :=
  Forall (fun tx => Tx.category tx <> ""%string) (transactions st)
  /\ In (category st) category_options.

(** An event other than the import of a file. *)
Definition not_an_import (e : event) : Prop :=
  match e with
  | ImportCSV (Some _) => False
  | _ => True
  end.

(** Every record has a non-empty description and a category of the select,
    and the category cell holds one of the options. *)
Definition entered_by_form (st : state) : Prop :=
  Forall (fun tx => (exists d, Tx.description tx = Some d /\ d <> ""%string)
                    /\ In (Tx.category tx) category_options)
    (transactions st)
  /\ In (category st) category_options.

(** * Part II: lemmas and theorems *)

(** ** Rounding keeps the sign *)

Section RoundingSign.

Lemma iter_pos_invariant {A : Type} (P : A -> Prop) (f : A -> A) :
  (forall a, P a -> P (f a)) ->
  forall p a, P a -> P (SpecFloat.iter_pos f p a).
Proof.
  intros Hf p. induction p as [p IH | p IH | ]; intros a Ha; simpl; auto.
Qed.

Lemma shr_1_nonneg mrs : 0 <= shr_m mrs -> 0 <= shr_m (shr_1 mrs).
Proof.
  destruct mrs as [m r s]. simpl.
  destruct m as [ | [p | p | ] | p ]; simpl; lia.
Qed.

Lemma shr_nonneg mrs e n : 0 <= shr_m mrs -> 0 <= shr_m (fst (shr mrs e n)).
Proof.
  intros H. unfold shr. destruct n; simpl; auto.
  apply (iter_pos_invariant (fun r => 0 <= shr_m r)); auto using shr_1_nonneg.
Qed.

Lemma shr_record_of_loc_m m l : shr_m (shr_record_of_loc m l) = m.
Proof. destruct l as [ | [ | | ] ]; reflexivity. Qed.

Lemma shr_fexp_nonneg m e l :
  0 <= m -> 0 <= shr_m (fst (shr_fexp prec emax m e l)).
Proof.
  intros H. unfold shr_fexp. apply shr_nonneg.
  now rewrite shr_record_of_loc_m.
Qed.

Lemma round_nearest_even_nonneg m l : 0 <= m -> 0 <= round_nearest_even m l.
Proof.
  intros H. unfold round_nearest_even.
  destruct l as [ | [ | | ] ]; try destruct (Z.even m); lia.
Qed.

Lemma binary_round_aux_sign sx mx ex lx :
  0 <= mx -> has_sign sx (binary_round_aux prec emax sx mx ex lx).
Proof.
  intros H. unfold binary_round_aux.
  pose proof (shr_fexp_nonneg mx ex lx H) as H1.
  destruct (shr_fexp prec emax mx ex lx) as [mrs' e'] eqn:E1. simpl in H1.
  pose proof (shr_fexp_nonneg _ e' loc_Exact
                (round_nearest_even_nonneg _ (loc_of_shr_record mrs') H1)) as H2.
  destruct (shr_fexp prec emax _ e' loc_Exact) as [mrs'' e''] eqn:E2.
  simpl in H2.
  destruct (shr_m mrs'') as [ | m | m ]; simpl; try reflexivity; try lia.
  destruct (Z.leb e'' (emax - prec)); reflexivity.
Qed.

Lemma binary_round_sign sx mx ex :
  has_sign sx (binary_round prec emax sx mx ex).
Proof.
  unfold binary_round.
  destruct (shl_align mx ex _) as [mz ez].
  apply binary_round_aux_sign. lia.
Qed.

Lemma add_nonneg x y :
  nonneg x -> positive_number y -> nonneg (add x y).
Proof.
  destruct x as [sx | sx | | sx mx ex], y as [sy | sy | | sy my ey];
    simpl; try tauto; intros Hx Hy; subst; simpl; try reflexivity.
  pose proof (binary_round_sign false
    ((shl_align mx ex (Z.min ex ey)).1 + (shl_align my ey (Z.min ex ey)).1)
    (Z.min ex ey)) as Hs.
  destruct (binary_round prec emax false _ _); simpl in *; auto.
Qed.

Lemma add_nonpos x y :
  nonpos x -> negative_number y -> nonpos (add x y).
Proof.
  destruct x as [sx | sx | | sx mx ex], y as [sy | sy | | sy my ey];
    simpl; try tauto; intros Hx Hy; subst; simpl; try reflexivity.
  pose proof (binary_round_sign true
    ((shl_align mx ex (Z.min ex ey)).1 + (shl_align my ey (Z.min ex ey)).1)
    (Z.min ex ey)) as Hs.
  destruct (binary_round prec emax true _ _); simpl in *; auto.
Qed.

End RoundingSign.

(** ** Sums of doubles of one sign never vanish

  On doubles (exponent at least [emin]) rounding a positive mantissa never
  underflows to zero: a right shift is taken only when the mantissa has more
  than [prec] digits, and it leaves [prec] of them. *)

Section RoundingRange.

Lemma digits2_pos_lower p : 2 ^ (Zpos (digits2_pos p) - 1) <= Zpos p.
Proof.
  induction p as [p IH | p IH | ]; simpl digits2_pos.
  - rewrite Pos2Z.inj_succ.
    replace (Z.succ (Zpos (digits2_pos p)) - 1)
      with (Z.succ (Zpos (digits2_pos p) - 1)) by lia.
    rewrite Z.pow_succ_r by lia. lia.
  - rewrite Pos2Z.inj_succ.
    replace (Z.succ (Zpos (digits2_pos p)) - 1)
      with (Z.succ (Zpos (digits2_pos p) - 1)) by lia.
    rewrite Z.pow_succ_r by lia. lia.
  - simpl. lia.
Qed.

Lemma shr_1_lower k mrs :
  0 <= k -> 2 ^ (k + 1) <= shr_m mrs -> 2 ^ k <= shr_m (shr_1 mrs).
Proof.
  intros Hk. rewrite Z.pow_add_r by lia. change (2 ^ 1) with 2.
  assert (0 < 2 ^ k) by (apply Z.pow_pos_nonneg; lia).
  destruct mrs as [m r s]. simpl.
  destruct m as [ | [p | p | ] | p ]; simpl; lia.
Qed.

Lemma iter_shr_1_lower p : forall k mrs,
  0 <= k -> 2 ^ (k + Zpos p) <= shr_m mrs ->
  2 ^ k <= shr_m (SpecFloat.iter_pos shr_1 p mrs).
Proof.
  induction p as [p IH | p IH | ]; intros k mrs Hk H; simpl.
  - apply IH; [lia | ]. apply IH; [lia | ].
    apply shr_1_lower; [lia | ].
    replace (k + Zpos p + Zpos p + 1) with (k + Zpos p~1) by lia. exact H.
  - apply IH; [lia | ]. apply IH; [lia | ].
    replace (k + Zpos p + Zpos p) with (k + Zpos p~0) by lia. exact H.
  - apply shr_1_lower; [lia | exact H].
Qed.

Lemma shr_fexp_positive m e l :
  0 < m -> emin <= e ->
  0 < shr_m (shr_fexp prec emax m e l).1 /\ emin <= (shr_fexp prec emax m e l).2.
Proof.
  intros Hm He. unfold shr_fexp, shr.
  destruct m as [ | q | q ]; try lia. simpl Zdigits2.
  destruct (fexp prec emax (Zpos (digits2_pos q) + e) - e) as [ | n | n ] eqn:En;
    simpl; rewrite ?shr_record_of_loc_m; try (split; [lia | exact He]).
  assert (Hn : Zpos n = Zpos (digits2_pos q) - prec /\ emin <= e + Zpos n).
  { unfold fexp in En. fold emin in En. lia. }
  destruct Hn as [Hn He'].
  split; [ | exact He'].
  apply (Z.lt_le_trans _ (2 ^ 0)); [reflexivity | ].
  apply iter_shr_1_lower; [lia | ].
  rewrite shr_record_of_loc_m. simpl Z.add.
  apply Z.le_trans with (2 ^ (Zpos (digits2_pos q) - 1)).
  - apply Z.pow_le_mono_r; [lia | ]. rewrite Hn. unfold prec. lia.
  - apply digits2_pos_lower.
Qed.

Lemma round_nearest_even_ge m l : m <= round_nearest_even m l.
Proof.
  unfold round_nearest_even.
  destruct l as [ | [ | | ] ]; try destruct (Z.even m); lia.
Qed.

Lemma binary_round_aux_nonzero sx mx ex lx :
  0 < mx -> emin <= ex ->
  nonzero_of_sign sx (binary_round_aux prec emax sx mx ex lx).
Proof.
  intros Hm He. unfold binary_round_aux.
  destruct (shr_fexp_positive mx ex lx Hm He) as [H1 H1e].
  destruct (shr_fexp prec emax mx ex lx) as [mrs' e'] eqn:E1. simpl in H1, H1e.
  assert (Hr : 0 < round_nearest_even (shr_m mrs') (loc_of_shr_record mrs')).
  { pose proof (round_nearest_even_ge (shr_m mrs') (loc_of_shr_record mrs')). lia. }
  destruct (shr_fexp_positive _ e' loc_Exact Hr H1e) as [H2 H2e].
  destruct (shr_fexp prec emax _ e' loc_Exact) as [mrs'' e''] eqn:E2.
  simpl in H2, H2e.
  destruct (shr_m mrs'') as [ | m | m ]; try lia.
  destruct (Z.leb e'' (emax - prec)); simpl; auto.
Qed.

Lemma binary_round_nonzero sx mx ex :
  emin <= ex -> nonzero_of_sign sx (binary_round prec emax sx mx ex).
Proof.
  intros He. unfold binary_round, shl_align.
  set (ex' := fexp prec emax (Zpos (digits2_pos mx) + ex)).
  assert (emin <= ex') by (unfold ex', fexp; fold emin; lia).
  destruct (ex' - ex); apply binary_round_aux_nonzero; lia.
Qed.

Lemma add_nonzero_of_sign s x y :
  (exists s', x = S754_zero s') \/ nonzero_of_sign s x ->
  nonzero_of_sign s y -> nonzero_of_sign s (add x y).
Proof.
  intros [[s' ->] | Hx] Hy.
  - destruct y; simpl in *; tauto.
  - destruct x as [sx | sx | | sx mx ex], y as [sy | sy | | sy my ey];
      simpl in *; try tauto; subst.
    all: try (destruct s; reflexivity).
    all: try (destruct Hy; subst; reflexivity).
    all: try (destruct Hx; subst; reflexivity).
    destruct Hx as [-> Hex], Hy as [-> Hey].
    destruct s; simpl; apply binary_round_nonzero; lia.
Qed.

Lemma valid_finite_exponent s m e :
  valid (S754_finite s m e) = true -> emin <= e.
Proof.
  unfold valid, valid_binary, bounded, canonical_mantissa.
  intros H. apply andb_prop in H as [H _]. apply Z.eqb_eq in H.
  unfold fexp in H. fold emin in H. lia.
Qed.

End RoundingRange.

(** ** Properties of the totals *)

Section Totals.

Lemma gt_zero_positive x : gt x zero = true -> positive_number x.
Proof. destruct x as [s | [ | ] | | [ | ] m e]; simpl; auto; discriminate. Qed.

Lemma lt_zero_negative x : lt x zero = true -> negative_number x.
Proof. destruct x as [s | [ | ] | | [ | ] m e]; simpl; auto; discriminate. Qed.

Lemma nonneg_ge_zero x : nonneg x -> ge x zero = true.
Proof. destruct x as [s | s | | s m e]; simpl; intros H; subst; tauto. Qed.

Lemma nonpos_le_zero x : nonpos x -> le x zero = true.
Proof. destruct x as [s | s | | s m e]; simpl; intros H; subst; tauto. Qed.

Lemma nonneg_not_NaN x : nonneg x -> isNaN x = false.
Proof. destruct x; simpl; tauto. Qed.

Lemma nonpos_not_NaN x : nonpos x -> isNaN x = false.
Proof. destruct x; simpl; tauto. Qed.

Lemma fold_add_nonneg (txs : ledger) : forall acc,
  nonneg acc ->
  nonneg (fold_left (fun a tx => add a (Tx.amount tx))
            (List.filter (fun tx => gt (Tx.amount tx) zero) txs) acc).
Proof.
  induction txs as [ | tx txs IH]; intros acc Hacc; simpl; auto.
  destruct (gt (Tx.amount tx) zero) eqn:E; simpl; auto.
  apply IH, add_nonneg; auto using gt_zero_positive.
Qed.

Lemma fold_add_nonpos (txs : ledger) : forall acc,
  nonpos acc ->
  nonpos (fold_left (fun a tx => add a (Tx.amount tx))
            (List.filter (fun tx => lt (Tx.amount tx) zero) txs) acc).
Proof.
  induction txs as [ | tx txs IH]; intros acc Hacc; simpl; auto.
  destruct (lt (Tx.amount tx) zero) eqn:E; simpl; auto.
  apply IH, add_nonpos; auto using lt_zero_negative.
Qed.

Lemma income_nonneg (transactions : ledger) : nonneg (income transactions).
Proof. apply fold_add_nonneg. exact I. Qed.

Lemma expenses_nonpos (transactions : ledger) : nonpos (expenses transactions).
Proof. apply fold_add_nonpos. exact I. Qed.

(** Both comparisons are false on [NaN]. *)
Lemma NaN_compares_false x :
  isNaN x = true -> gt x zero = false /\ lt x zero = false.
Proof. destruct x; simpl; try discriminate. auto. Qed.

Lemma filter_without_NaN (p : number -> bool) (transactions : ledger) :
  (forall x, isNaN x = true -> p x = false) ->
  List.filter (fun tx => p (Tx.amount tx)) (without_NaN transactions)
  = List.filter (fun tx => p (Tx.amount tx)) transactions.
Proof.
  intros Hp. induction transactions as [ | tx txs IH]; simpl; auto.
  destruct (isNaN (Tx.amount tx)) eqn:E; simpl.
  - rewrite (Hp _ E). exact IH.
  - destruct (p (Tx.amount tx)); simpl; congruence.
Qed.

Lemma income_without_NaN transactions :
  income (without_NaN transactions) = income transactions.
Proof.
  unfold income. f_equal.
  apply (filter_without_NaN (fun x => gt x zero)).
  intros x Hx. apply (NaN_compares_false x Hx).
Qed.

Lemma expenses_without_NaN transactions :
  expenses (without_NaN transactions) = expenses transactions.
Proof.
  unfold expenses. f_equal.
  apply (filter_without_NaN (fun x => lt x zero)).
  intros x Hx. apply (NaN_compares_false x Hx).
Qed.

End Totals.

(** C1. For every ledger the balance is the income plus the expenses, the
    income (the sum, in ledger order, of the amounts that are [> 0]) is
    greater than or equal to zero and the expenses (the sum of the amounts
    that are [< 0], kept negative) are less than or equal to zero.  This holds
    in double arithmetic, infinite and [NaN] amounts included. *)
Theorem balance_income_expenses (transactions : ledger) :
  balance transactions = add (income transactions) (expenses transactions)
  /\ income transactions
     = fold_left (fun acc tx => add acc (Tx.amount tx))
         (List.filter (fun tx => gt (Tx.amount tx) zero) transactions) zero
  /\ expenses transactions
     = fold_left (fun acc tx => add acc (Tx.amount tx))
         (List.filter (fun tx => lt (Tx.amount tx) zero) transactions) zero
  /\ ge (income transactions) zero = true
  /\ le (expenses transactions) zero = true.
Proof.
  repeat split.
  - apply nonneg_ge_zero, income_nonneg.
  - apply nonpos_le_zero, expenses_nonpos.
Qed.

(** C7, refuted as stated.  A ledger holding a [NaN] amount has the totals
    0, 0 and 0, and no ledger at all has a [NaN] income or [NaN] expenses:
    [NaN > 0] and [NaN < 0] are both false, so the record is filtered out
    before any sum is taken. *)
Lemma NaN_amount_kept_out_of_totals :
  (isNaN (Tx.amount unparsed_record) = true
   /\ income [unparsed_record] = zero
   /\ expenses [unparsed_record] = zero
   /\ balance [unparsed_record] = zero)
  /\ ~ (exists transactions : ledger,
          Exists (fun tx => isNaN (Tx.amount tx) = true) transactions
          /\ (isNaN (income transactions) = true
              \/ isNaN (expenses transactions) = true)).
Proof.
  split.
  - repeat split.
  - intros [transactions [_ [H | H]]].
    + rewrite (nonneg_not_NaN _ (income_nonneg transactions)) in H. discriminate.
    + rewrite (nonpos_not_NaN _ (expenses_nonpos transactions)) in H. discriminate.
Qed.

(** C7, as the code has it.  The three totals of a ledger are those of the
    ledger without its [NaN]-amount records, and neither the income nor the
    expenses is ever [NaN]. *)
Theorem totals_ignore_NaN_amounts (transactions : ledger) :
  income transactions = income (without_NaN transactions)
  /\ expenses transactions = expenses (without_NaN transactions)
  /\ balance transactions = balance (without_NaN transactions)
  /\ isNaN (income transactions) = false
  /\ isNaN (expenses transactions) = false.
Proof.
  repeat split.
  - symmetry. apply income_without_NaN.
  - symmetry. apply expenses_without_NaN.
  - unfold balance. now rewrite income_without_NaN, expenses_without_NaN.
  - apply nonneg_not_NaN, income_nonneg.
  - apply nonpos_not_NaN, expenses_nonpos.
Qed.

(** ** Deleting a row *)

Section Delete.

Context {A : Type}.

Lemma filter_index_all (keep : Z -> bool) (l : list A) : forall i,
  (forall j, i <= j < i + Z.of_nat (length l) -> keep j = true) ->
  filter_index keep l i = l.
Proof.
  induction l as [ | x l IH]; intros i H; simpl; auto.
  rewrite H by (simpl length; lia). f_equal.
  apply IH. intros j Hj. apply H. simpl length. lia.
Qed.

Lemma filter_index_remove (index : Z) (l : list A) : forall i,
  i <= index < i + Z.of_nat (length l) ->
  filter_index (fun j => negb (j =? index)) l i
  = firstn (Z.to_nat (index - i)) l ++ skipn (S (Z.to_nat (index - i))) l.
Proof.
  induction l as [ | x l IH]; intros i H; simpl in H; [lia | ].
  simpl filter_index. destruct (Z.eqb_spec i index) as [-> | Hne]; simpl negb.
  - rewrite Z.sub_diag. simpl. apply filter_index_all.
    intros j Hj. apply negb_true_iff, Z.eqb_neq. lia.
  - replace (Z.to_nat (index - i)) with (S (Z.to_nat (index - (i + 1)))) by lia.
    simpl. f_equal. apply IH. lia.
Qed.

End Delete.

Lemma state_eta (st : state) :
  mkState (transactions st) (description st) (amount st) (category st) (darkMode st)
  = st.
Proof. destruct st; reflexivity. Qed.

(** C3. For a ledger of length [n] and an index [0 <= index < n], deleting
    leaves the records before position [index] followed by those after it,
    in their order: exactly the record at [index] is gone, the length is
    [n - 1], and position [j] of the result holds what position [j] held
    (below [index]) or what position [j + 1] held (from [index] on).  The
    form and the dark mode are untouched. *)
Theorem delete_removes_the_indexed_record (index : Z) (st : state) :
  0 <= index < Z.of_nat (length (transactions st)) ->
  transactions (handleDeleteTransaction index st)
  = firstn (Z.to_nat index) (transactions st)
    ++ skipn (S (Z.to_nat index)) (transactions st)
  /\ S (length (transactions (handleDeleteTransaction index st)))
     = length (transactions st)
  /\ (forall j : nat,
        transactions (handleDeleteTransaction index st) !! j
        = if (Z.of_nat j <? index) then transactions st !! j
          else transactions st !! S j)
  /\ description (handleDeleteTransaction index st) = description st
  /\ amount (handleDeleteTransaction index st) = amount st
  /\ category (handleDeleteTransaction index st) = category st
  /\ darkMode (handleDeleteTransaction index st) = darkMode st.
Proof.
  intros H. simpl.
  rewrite (filter_index_remove index (transactions st) 0) by lia.
  rewrite Z.sub_0_r.
  set (l := transactions st) in *. set (n := Z.to_nat index).
  assert (Hn : (n < length l)%nat) by lia.
  repeat split.
  - rewrite length_app, length_take, length_drop. lia.
  - intros j. destruct (Z.ltb_spec (Z.of_nat j) index) as [Hj | Hj].
    + rewrite lookup_app_l by (rewrite length_take; lia).
      apply lookup_take_lt. lia.
    + rewrite lookup_app_r by (rewrite length_take; lia).
      rewrite length_take, lookup_drop. f_equal. lia.
Qed.

(** C10. For an index outside [0 <= index < n] (negative, or [n] and
    above) deleting changes nothing: the handler returns the state it was
    given. *)
Theorem delete_out_of_range_changes_nothing (index : Z) (st : state) :
  index < 0 \/ Z.of_nat (length (transactions st)) <= index ->
  handleDeleteTransaction index st = st.
Proof.
  intros H. unfold handleDeleteTransaction.
  rewrite filter_index_all; [apply state_eta | ].
  intros j Hj. apply negb_true_iff, Z.eqb_neq. lia.
Qed.

(** ** Adding and importing *)

Section AddImport.

Variable parseFloat : string -> number.

Lemma eqb_empty_false (s : string) : s <> ""%string -> String.eqb s "" = false.
Proof. intros H. now apply String.eqb_neq. Qed.

(** C5. Submitting the form with an empty description or an empty amount
    changes nothing, ledger and form included.  Otherwise the ledger gains
    exactly one record, at its end, made of the description, the parsed
    amount and the category; the records it had stay where they were; the
    description and amount cells are emptied and the category cell is set
    back to ["Other"]. *)
Theorem add_transaction_guard_and_append (st : state) :
  (description st = ""%string \/ amount st = ""%string ->
   handleAddTransaction parseFloat st = st)
  /\ (description st <> ""%string -> amount st <> ""%string ->
      transactions (handleAddTransaction parseFloat st)
      = transactions st
        ++ [Tx.make (Some (description st)) (parseFloat (amount st)) (category st)]
      /\ length (transactions (handleAddTransaction parseFloat st))
         = S (length (transactions st))
      /\ firstn (length (transactions st))
           (transactions (handleAddTransaction parseFloat st))
         = transactions st
      /\ description (handleAddTransaction parseFloat st) = ""%string
      /\ amount (handleAddTransaction parseFloat st) = ""%string
      /\ category (handleAddTransaction parseFloat st) = "Other"%string
      /\ darkMode (handleAddTransaction parseFloat st) = darkMode st).
Proof.
  unfold handleAddTransaction. split.
  - intros [-> | ->]; simpl; [reflexivity | ].
    now rewrite orb_true_r.
  - intros Hd Ha. rewrite (eqb_empty_false _ Hd), (eqb_empty_false _ Ha). simpl.
    repeat split.
    + rewrite length_app. simpl. lia.
    + now rewrite take_app_length.
Qed.

Lemma imported_transaction_spec (r : Papa.row) :
  imported_from parseFloat r (imported_transaction parseFloat r).
Proof.
  unfold imported_from, imported_transaction, category_or_Other. simpl.
  repeat split.
  - intros c -> Hc. now rewrite (eqb_empty_false _ Hc).
  - intros [-> | ->]; reflexivity.
Qed.

(** C6. Importing a document replaces the ledger by the records made from
    its rows, one per row and in their order, whatever the ledger held
    before (two different prior states end with the same ledger).  A
    record's category is the row's when that is a non-empty string and
    ["Other"] otherwise; its amount is [parseFloat] of the row's amount
    field, taken as it comes ([NaN] included). *)
Theorem import_replaces_the_ledger (doc : Papa.document) (st : state) :
  transactions (handleImportCSV parseFloat (Some doc) st)
  = map (imported_transaction parseFloat) (Papa.parse doc)
  /\ Forall2 (imported_from parseFloat) (Papa.parse doc)
       (transactions (handleImportCSV parseFloat (Some doc) st))
  /\ (forall st' : state,
        transactions (handleImportCSV parseFloat (Some doc) st')
        = transactions (handleImportCSV parseFloat (Some doc) st))
  /\ description (handleImportCSV parseFloat (Some doc) st) = description st
  /\ amount (handleImportCSV parseFloat (Some doc) st) = amount st
  /\ category (handleImportCSV parseFloat (Some doc) st) = category st.
Proof.
  simpl. repeat split.
  induction (Papa.parse doc) as [ | r rows IH]; simpl; constructor; auto.
  apply imported_transaction_spec.
Qed.

(** C8. From the empty ledger, entering Coffee, -4.50, Food and then
    Paycheck, 2000, Salary (with [parseFloat] reading the two numerals as
    [-4.5] and [2000]) gives the income 2000, the expenses -4.5, the balance
    1995.5 and the chart data [[{ name: "Food", value: 4.5 }]]. *)
Theorem coffee_then_paycheck_totals :
  parseFloat "-4.50" = of_decimal (-450) 2 ->
  parseFloat "2000" = of_Z 2000 ->
  transactions (run parseFloat coffee_then_paycheck initial_state)
  = [coffee; paycheck]
  /\ income (transactions (run parseFloat coffee_then_paycheck initial_state))
     = of_Z 2000
  /\ expenses (transactions (run parseFloat coffee_then_paycheck initial_state))
     = of_decimal (-450) 2
  /\ balance (transactions (run parseFloat coffee_then_paycheck initial_state))
     = of_decimal 199550 2
  /\ chartData (transactions (run parseFloat coffee_then_paycheck initial_state))
     = [mkEntry "Food" (Obj.VNumber (of_decimal 450 2))].
Proof.
  intros Hcoffee Hpaycheck.
  assert (Hrun : transactions (run parseFloat coffee_then_paycheck initial_state)
                 = [coffee; paycheck]).
  { cbn. rewrite Hcoffee, Hpaycheck. reflexivity. }
  rewrite Hrun. repeat split; vm_compute; reflexivity.
Qed.

End AddImport.

(** Importing over the sample ledger a document whose first row has a blank
    category, whose second has none, and whose third has an amount that is
    not a numeral: the three records replace the ledger, the categories
    default to ["Other"], the last amount is [NaN]. *)
Example import_defaults :
  transactions
    (handleImportCSV Decimal.parseFloat
       (Some [ ["description"; "amount"; "category"];
               ["Tea"; "-3"; ""];
               ["Gift"; "20"];
               ["Oops"; "abc"; "Food"] ]%string)
       sample_state)
  = [ Tx.make (Some "Tea"%string) (of_Z (-3)) "Other";
      Tx.make (Some "Gift"%string) (of_Z 20) "Other";
      Tx.make (Some "Oops"%string) NaN "Food" ].
Proof. vm_compute. reflexivity. Qed.

(** [Object.keys] puts the array indices first, in ascending order. *)
Example keys_order :
  map name
    (chartData
       [ Tx.make (Some "a"%string) (of_Z (-1)) "Food";
         Tx.make (Some "b"%string) (of_Z (-2)) "10";
         Tx.make (Some "c"%string) (of_Z (-3)) "2";
         Tx.make (Some "d"%string) (of_Z (-4)) "Food";
         Tx.make (Some "e"%string) (of_Z (-5)) "010" ])
  = [ "2"; "10"; "Food"; "010" ]%string.
Proof. vm_compute. reflexivity. Qed.

(** C3 on the sample ledger: deleting row 1 of Coffee, Paycheck, Flat. *)
Lemma delete_removes_the_indexed_record_witness :
  transactions (handleDeleteTransaction 1 sample_state) = [coffee; rent].
Proof.
  destruct (delete_removes_the_indexed_record 1 sample_state) as [H _].
  - simpl. lia.
  - rewrite H. reflexivity.
Defined.

(** C10 on the sample ledger: row 3 and row -1 do not exist. *)
Lemma delete_out_of_range_changes_nothing_witness :
  handleDeleteTransaction 3 sample_state = sample_state
  /\ handleDeleteTransaction (-1) sample_state = sample_state.
Proof.
  split; apply delete_out_of_range_changes_nothing; simpl; lia.
Defined.

(** The literals of the scenario as doubles: [-4.5] is [-4.5 * 2^50 / 2^50],
    [2000] is [2000 * 2^42 / 2^42], and likewise [1995.5] and [4.5]. *)
Example scenario_literals :
  of_decimal (-450) 2 = S754_finite true 5066549580791808 (-50)
  /\ of_Z 2000 = S754_finite false 8796093022208000 (-42)
  /\ of_decimal 199550 2 = S754_finite false 8776301812908032 (-42)
  /\ of_decimal 450 2 = S754_finite false 5066549580791808 (-50)
  /\ 5066549580791808 = 45 * 2 ^ 50 / 10
  /\ 8796093022208000 = 2000 * 2 ^ 42
  /\ 8776301812908032 = 19955 * 2 ^ 42 / 10.
Proof. repeat split; vm_compute; reflexivity. Qed.

(** C8 with the decimal reading of [parseFloat]. *)
Lemma coffee_then_paycheck_totals_witness :
  balance (transactions (run Decimal.parseFloat coffee_then_paycheck initial_state))
  = of_decimal 199550 2.
Proof.
  apply (coffee_then_paycheck_totals Decimal.parseFloat);
    vm_compute; reflexivity.
Defined.

(** ** The category breakdown *)

Section Objects.

Import Obj.

Lemma own_define (o : object) (k k' : string) (v : value) :
  own (define o k v) k' = if String.eqb k k' then Some v else own o k'.
Proof.
  induction o as [ | [k1 v1] o IH]; simpl; [reflexivity | ].
  destruct (String.eqb_spec k1 k) as [-> | Hk1]; simpl.
  - destruct (String.eqb k k'); reflexivity.
  - rewrite IH. destruct (String.eqb_spec k1 k') as [-> | ?]; [ | reflexivity].
    destruct (String.eqb_spec k k'); congruence.
Qed.

Lemma In_keys_own (o : object) (k : string) :
  In k (map fst o) <-> own o k <> None.
Proof.
  induction o as [ | [k1 v1] o IH]; simpl; [tauto | ].
  destruct (String.eqb_spec k1 k) as [-> | Hk1].
  - split; [discriminate | auto].
  - rewrite <- IH. tauto.
Qed.

Lemma NoDup_define (o : object) (k : string) (v : value) :
  List.NoDup (map fst o) -> List.NoDup (map fst (define o k v)).
Proof.
  induction o as [ | [k1 v1] o IH]; simpl; intros H.
  - constructor; [intros [] | constructor].
  - inversion H as [ | ? ? Hnot Hrest]; subst.
    destruct (String.eqb_spec k1 k) as [-> | Hk1]; simpl.
    + constructor; assumption.
    + constructor; [ | auto].
      rewrite In_keys_own, own_define.
      destruct (String.eqb_spec k k1); [congruence | ].
      now rewrite <- In_keys_own.
Qed.

Lemma insert_index_Permutation (e : N * string) (l : list (N * string)) :
  Permutation (insert_index e l) (e :: l).
Proof.
  induction l as [ | e' l IH]; simpl; [reflexivity | ].
  destruct (fst e <=? fst e')%N; [reflexivity | ].
  rewrite IH. apply perm_swap.
Qed.

Lemma sort_Permutation (l : list (N * string)) :
  Permutation (fold_right insert_index [] l) l.
Proof.
  induction l as [ | e l IH]; simpl; [reflexivity | ].
  rewrite insert_index_Permutation. now apply perm_skip.
Qed.

(** [Object.keys] lists every own property once. *)
Lemma keys_Permutation (o : object) : Permutation (keys o) (map fst o).
Proof.
  unfold keys, index_keys. rewrite sort_Permutation. unfold string_keys.
  induction o as [ | [k v] o IH]; simpl; [reflexivity | ].
  destruct (array_index k) as [n | ]; simpl.
  - now apply perm_skip.
  - rewrite <- Permutation_middle. now apply perm_skip.
Qed.

Lemma filter_eqb_absent (c : string) (ks : list string) :
  ~ In c ks -> List.filter (fun k => String.eqb k c) ks = [].
Proof.
  induction ks as [ | k ks IH]; simpl; [reflexivity | ]. intros H.
  destruct (String.eqb_spec k c); [tauto | ]. apply IH. tauto.
Qed.

Lemma filter_eqb_present (c : string) (ks : list string) :
  List.NoDup ks -> In c ks -> List.filter (fun k => String.eqb k c) ks = [c].
Proof.
  induction ks as [ | k ks IH]; simpl; [tauto | ]. intros Hnd Hin.
  inversion Hnd as [ | ? ? Hnot Hrest]; subst.
  destruct (String.eqb_spec k c) as [-> | Hne].
  - f_equal. now apply filter_eqb_absent.
  - apply IH; [assumption | ]. destruct Hin; [contradiction | assumption].
Qed.

Lemma chart_entries_map (o : object) (c : string) (ks : list string) :
  chart_entries (map (fun key => mkEntry key (get o key)) ks) c
  = map (get o) (List.filter (fun k => String.eqb k c) ks).
Proof.
  unfold chart_entries.
  induction ks as [ | k ks IH]; simpl; [reflexivity | ].
  destruct (String.eqb k c); simpl; now rewrite IH.
Qed.

(** The chart entries under a name: the own property of that name, if the
    object has one. *)
Lemma chart_entries_own (o : object) (c : string) :
  List.NoDup (map fst o) ->
  chart_entries (map (fun key => mkEntry key (get o key)) (keys o)) c
  = match own o c with Some v => [v] | None => [] end.
Proof.
  intros Hnd. rewrite chart_entries_map.
  pose proof (keys_Permutation o) as Hp.
  destruct (own o c) as [v | ] eqn:E.
  - rewrite filter_eqb_present.
    + simpl. unfold get. now rewrite E.
    + eapply Permutation_NoDup; [symmetry; exact Hp | exact Hnd].
    + eapply Permutation_in; [symmetry; exact Hp | ].
      apply In_keys_own. congruence.
  - rewrite filter_eqb_absent; [reflexivity | ].
    intros Hin. eapply Permutation_in in Hin; [ | exact Hp].
    apply In_keys_own in Hin. congruence.
Qed.

Lemma not_inherited_not_proto (c : string) :
  inherited c = false -> String.eqb "__proto__" c = false.
Proof.
  intros H. destruct (String.eqb_spec "__proto__" c) as [<- | ]; [ | reflexivity].
  discriminate H.
Qed.

Lemma own_set (o : object) (k c : string) (v : value) :
  inherited c = false ->
  own (set o k v) c = if String.eqb k c then Some v else own o c.
Proof.
  intros Hc. unfold set.
  destruct (String.eqb_spec k "__proto__") as [-> | Hk].
  - now rewrite (not_inherited_not_proto c Hc).
  - apply own_define.
Qed.

Lemma NoDup_set (o : object) (k : string) (v : value) :
  List.NoDup (map fst o) -> List.NoDup (map fst (set o k v)).
Proof.
  unfold set. destruct (String.eqb k "__proto__"); auto using NoDup_define.
Qed.

End Objects.

Section Breakdown.

Variable c : string.
Hypothesis c_not_inherited : Obj.inherited c = false.

Lemma NoDup_expense_reducer (acc : Obj.object) (tx : transaction) :
  List.NoDup (map fst acc) -> List.NoDup (map fst (expense_reducer acc tx)).
Proof.
  unfold expense_reducer. destruct (Obj.truthy _); apply NoDup_set.
Qed.

Lemma own_expense_reducer (acc : Obj.object) (tx : transaction) :
  entry_ok (Obj.own acc c) ->
  Obj.own (expense_reducer acc tx) c
  = if String.eqb (Tx.category tx) c
    then bump (Obj.own acc c) (abs (Tx.amount tx))
    else Obj.own acc c.
Proof.
  intros Hok. unfold expense_reducer.
  destruct (String.eqb_spec (Tx.category tx) c) as [-> | Hne].
  - unfold Obj.get.
    destruct Hok as [-> | [v [-> Hv]]].
    + rewrite c_not_inherited. simpl.
      rewrite own_set, String.eqb_refl by assumption. reflexivity.
    + assert (Ht : Number.truthy v = true) by (destruct v; simpl in *; tauto).
      simpl. rewrite Ht, own_set, String.eqb_refl by assumption. reflexivity.
  - apply String.eqb_neq in Hne.
    destruct (Obj.truthy _); rewrite own_set, Hne by assumption; reflexivity.
Qed.

Lemma entry_ok_bump (e : option Obj.value) (x : number) :
  entry_ok e -> nonzero_of_sign false x -> entry_ok (bump e x).
Proof.
  intros He Hx. right. unfold bump.
  destruct He as [-> | [v [-> Hv]]]; eexists; split; try reflexivity; auto.
  apply add_nonzero_of_sign; auto.
Qed.

Lemma fold_expense_reducer (txs : ledger) : forall acc : Obj.object,
  Forall (fun tx => nonzero_of_sign false (abs (Tx.amount tx))) txs ->
  entry_ok (Obj.own acc c) ->
  Obj.own (fold_left expense_reducer txs acc) c
  = fold_left bump
      (map (fun tx => abs (Tx.amount tx))
         (List.filter (fun tx => String.eqb (Tx.category tx) c) txs))
      (Obj.own acc c).
Proof.
  induction txs as [ | tx txs IH]; intros acc Hall Hok; simpl; [reflexivity | ].
  inversion Hall as [ | ? ? Htx Hrest]; subst.
  pose proof (own_expense_reducer acc tx Hok) as Hstep.
  rewrite IH; try assumption.
  - rewrite Hstep. destruct (String.eqb (Tx.category tx) c); reflexivity.
  - rewrite Hstep. destruct (String.eqb (Tx.category tx) c); [ | assumption].
    now apply entry_ok_bump.
Qed.

Lemma NoDup_fold_expense_reducer (txs : ledger) : forall acc : Obj.object,
  List.NoDup (map fst acc) ->
  List.NoDup (map fst (fold_left expense_reducer txs acc)).
Proof.
  induction txs as [ | tx txs IH]; intros acc H; simpl; auto.
  apply IH, NoDup_expense_reducer, H.
Qed.

Lemma fold_bump_number (xs : list number) : forall v : number,
  fold_left bump xs (Some (Obj.VNumber v))
  = Some (Obj.VNumber (fold_left add xs v)).
Proof.
  induction xs as [ | x xs IH]; intros v; simpl; [reflexivity | apply IH].
Qed.

Lemma add_zero_nonzero (x : number) : nonzero_of_sign false x -> add zero x = x.
Proof. destruct x; simpl; tauto. Qed.

Lemma fold_bump_from_nothing (xs : list number) :
  Forall (nonzero_of_sign false) xs ->
  fold_left bump xs None
  = match xs with
    | [] => None
    | _ :: _ => Some (Obj.VNumber (fold_left add xs zero))
    end.
Proof.
  destruct xs as [ | x xs]; intros H; [reflexivity | ].
  inversion H; subst.
  change (fold_left bump (x :: xs) None)
    with (fold_left bump xs (Some (Obj.VNumber x))).
  rewrite fold_bump_number. cbn [fold_left].
  now rewrite add_zero_nonzero.
Qed.

Lemma filter_category_of_expenses (l : ledger) :
  List.filter (fun tx => String.eqb (Tx.category tx) c)
    (List.filter (fun tx => lt (Tx.amount tx) zero) l)
  = expenses_in c l.
Proof.
  unfold expenses_in. induction l as [ | tx l IH]; simpl; [reflexivity | ].
  destruct (lt (Tx.amount tx) zero); simpl; [ | exact IH].
  destruct (String.eqb (Tx.category tx) c); now rewrite IH.
Qed.

Lemma abs_of_negative_double (x : number) :
  valid x = true -> lt x zero = true -> nonzero_of_sign false (abs x).
Proof.
  intros Hv Hlt. apply lt_zero_negative in Hlt.
  destruct x as [s | s | | s m e]; simpl in Hlt |- *; try tauto.
  split; [reflexivity | ]. exact (valid_finite_exponent s m e Hv).
Qed.

Lemma Forall_filter_expenses (l : ledger) :
  Forall (fun tx => valid (Tx.amount tx) = true) l ->
  Forall (fun tx => nonzero_of_sign false (abs (Tx.amount tx)))
    (List.filter (fun tx => lt (Tx.amount tx) zero) l).
Proof.
  induction 1 as [ | tx l Htx _ IH]; simpl; [constructor | ].
  destruct (lt (Tx.amount tx) zero) eqn:E; [ | exact IH].
  constructor; [ | exact IH]. now apply abs_of_negative_double.
Qed.

(** X1. The breakdown for a category whose name is not one that plain
    objects inherit, on a ledger of doubles: when the ledger has an expense of that
    category the chart holds exactly one entry under its name, whose value
    is the sum of the absolute values of those expenses; when it has none
    the chart holds no entry under that name. *)
Theorem chart_value_is_category_total (transactions : ledger) :
  Forall (fun tx => valid (Tx.amount tx) = true) transactions ->
  chart_entries (chartData transactions) c
  = match expenses_in c transactions with
    | [] => []
    | _ :: _ => [Obj.VNumber (category_total c transactions)]
    end.
Proof.
  intros Hvalid. unfold chartData, expenseByCategory.
  rewrite chart_entries_own
    by (apply NoDup_fold_expense_reducer; constructor).
  pose proof (Forall_filter_expenses transactions Hvalid) as Hall.
  rewrite (fold_expense_reducer _ [] Hall) by (left; reflexivity).
  rewrite filter_category_of_expenses. simpl Obj.own.
  rewrite fold_bump_from_nothing.
  - unfold category_total.
    destruct (expenses_in c transactions); reflexivity.
  - rewrite <- filter_category_of_expenses.
    apply Forall_map.
    revert Hall. generalize (List.filter (fun tx => lt (Tx.amount tx) zero) transactions).
    induction 1 as [ | tx l Htx _ IH]; simpl; [constructor | ].
    destruct (String.eqb (Tx.category tx) c); [constructor | ]; assumption.
Qed.

End Breakdown.

(** X1 on a ledger with two Coffee expenses: 4.5 + 4.5. *)
Lemma chart_value_is_category_total_witness :
  chart_entries (chartData [coffee; paycheck; rent; coffee]) "Food"
  = [Obj.VNumber (of_Z 9)].
Proof.
  rewrite (chart_value_is_category_total "Food" eq_refl
             [coffee; paycheck; rent; coffee]).
  - vm_compute. reflexivity.
  - repeat (apply List.Forall_cons; [vm_compute; reflexivity | ]).
    apply List.Forall_nil.
Defined.

(** C4 at a category named like an inherited property.  The accumulator
    already yields a truthy value under ["constructor"], so the first
    expense is appended to it with [+=] instead of being stored: the chart
    value is a text, not the sum 4.5.  Under ["__proto__"] nothing is stored
    and the expense has no chart entry at all. *)
Theorem chart_of_inherited_category_name :
  expenses_in "constructor" inherited_name_ledger = inherited_name_ledger
  /\ category_total "constructor" inherited_name_ledger = of_decimal 450 2
  /\ chartData inherited_name_ledger
     = [mkEntry "constructor" (Obj.VText "constructor" [of_decimal 450 2])]
  /\ chart_entries (chartData inherited_name_ledger) "constructor"
     <> [Obj.VNumber (category_total "constructor" inherited_name_ledger)]
  /\ expenses_in "__proto__" proto_ledger = proto_ledger
  /\ chartData proto_ledger = [].
Proof.
  repeat split; try (vm_compute; reflexivity).
  vm_compute. discriminate.
Qed.

(** X3. The names of the chart are pairwise distinct: one entry per category at
    most, for every ledger. *)
Theorem chart_names_distinct (transactions : ledger) :
  List.NoDup (map name (chartData transactions)).
Proof.
  unfold chartData. rewrite map_map. simpl. rewrite map_id.
  eapply Permutation_NoDup; [symmetry; apply keys_Permutation | ].
  apply NoDup_fold_expense_reducer. constructor.
Qed.

(** ** When the balance is not a number *)

Lemma binary_normalize_not_NaN (m e : Z) (szero : bool) :
  isNaN (binary_normalize prec emax m e szero) = false.
Proof.
  destruct m as [ | p | p]; simpl; [reflexivity | | ].
  - pose proof (binary_round_sign false p e) as H.
    destruct (binary_round prec emax false p e); simpl in *; tauto.
  - pose proof (binary_round_sign true p e) as H.
    destruct (binary_round prec emax true p e); simpl in *; tauto.
Qed.

Lemma add_NaN_opposite_infinities (x y : number) :
  nonneg x -> nonpos y ->
  (isNaN (add x y) = true
   <-> x = S754_infinity false /\ y = S754_infinity true).
Proof.
  destruct x as [sx | sx | | sx mx ex], y as [sy | sy | | sy my ey];
    simpl; try tauto; intros Hx Hy; subst.
  all: try (unfold add, SFadd; rewrite binary_normalize_not_NaN).
  all: repeat match goal with b : bool |- _ => destruct b end; simpl.
  all: split; [ | intros [H1 H2]; try discriminate H1; try discriminate H2 ].
  all: try discriminate; auto.
Qed.

(** X2. The balance is [NaN] exactly when the income is [Infinity] and the
    expenses are [-Infinity]; a [NaN] amount alone never makes it so. *)
Theorem balance_NaN_only_from_infinities (transactions : ledger) :
  isNaN (balance transactions) = true
  <-> income transactions = S754_infinity false
      /\ expenses transactions = S754_infinity true.
Proof.
  apply add_NaN_opposite_infinities;
    [apply income_nonneg | apply expenses_nonpos].
Qed.

(** ** Export followed by import *)

Section RoundTrip.

Variable parseFloat : string -> number.
Variable numberToString : number -> string.

(** The rows papaparse reads back from an exported ledger. *)
Lemma parse_unparse (l : ledger) :
  Papa.parse (Papa.unparse numberToString l)
  = map (fun tx => Papa.mkRow (Some (Papa.cell_of_description (Tx.description tx)))
                              (Some (numberToString (Tx.amount tx)))
                              (Some (Tx.category tx))) l.
Proof.
  destruct l as [ | tx l]; [reflexivity | ].
  unfold Papa.unparse, Papa.parse. rewrite map_map. reflexivity.
Qed.




End RoundTrip.



(** ** Persistence *)

Section PersistenceProofs.

Variable parseFloat : string -> number.
Variable JSON_stringify : ledger -> string.
Variable JSON_parse : string -> option ledger.

Lemma run_effects_transactions (tc dc : bool) (st : state) (sto : storage) :
  run_effects JSON_stringify tc dc st sto !! "transactions"%string
  = if tc then Some (JSON_stringify (transactions st))
    else sto !! "transactions"%string.
Proof.
  unfold run_effects, save_transactions, save_darkMode.
  destruct tc, dc; rewrite ?lookup_insert_ne by discriminate;
    rewrite ?lookup_insert_eq; reflexivity.
Qed.

Lemma handle_keeps_transactions (e : event) (st : state) :
  sets_transactions e st = false ->
  transactions (handle parseFloat e st) = transactions st.
Proof.
  destruct e as [ | | | | | [doc | ] | | ]; simpl; try discriminate; auto.
  unfold handleAddTransaction. intros H. apply negb_false_iff in H.
  now rewrite H.
Qed.

Lemma handle_keeps_darkMode (e : event) (st : state) :
  sets_transactions e st = true ->
  darkMode (handle parseFloat e st) = darkMode st.
Proof.
  destruct e as [ | | | | | [doc | ] | | ]; simpl; try discriminate; auto.
  unfold handleAddTransaction. intros H. apply negb_true_iff in H.
  now rewrite H.
Qed.

Lemma dispatch_persisted (e : event) (w : world) :
  persisted JSON_stringify w -> persisted JSON_stringify (dispatch parseFloat JSON_stringify e w).
Proof.
  unfold persisted, dispatch. simpl. intros H.
  rewrite run_effects_transactions.
  destruct (sets_transactions e (app w)) eqn:E; [reflexivity | ].
  now rewrite handle_keeps_transactions.
Qed.

Lemma mount_persisted (sto : storage) (w : world) :
  mount JSON_stringify JSON_parse sto = Some w -> persisted JSON_stringify w.
Proof.
  unfold mount, persisted. intros H.
  destruct (loaded_state JSON_parse sto) as [[st set] | ] eqn:E; [ | discriminate].
  injection H as <-. cbn [localStorage app].
  rewrite run_effects_transactions. destruct set; [reflexivity | ].
  unfold save_darkMode, save_transactions.
  rewrite lookup_insert_ne by discriminate. rewrite lookup_insert_eq.
  unfold loaded_state in E.
  destruct (sto !! "transactions"%string) as [saved | ].
  - destruct (String.eqb saved ""); [now injection E as <- | ].
    destruct (JSON_parse saved); [ | discriminate]. now injection E as <-.
  - now injection E as <-.
Qed.

Lemma reachable_persisted (w : world) :
  reachable parseFloat JSON_stringify JSON_parse w -> persisted JSON_stringify w.
Proof.
  induction 1 as [sto w Hmount | w w' _ IH Hstep].
  - eapply mount_persisted, Hmount.
  - destruct Hstep as [e w]. now apply dispatch_persisted.
Qed.

(** C9. In every state the page can reach (mounting over any storage, then
    any sequence of events, each followed by the effects it triggers) the
    storage key ["transactions"] holds the serialization of the whole ledger
    in memory.  An event that sets the ledger (an accepted add, a delete, an
    import) rewrites exactly that key with the serialization of the whole
    new ledger and touches nothing else. *)
Theorem ledger_persisted_after_every_mutation (w : world) :
  reachable parseFloat JSON_stringify JSON_parse w ->
  localStorage w !! "transactions"%string
  = Some (JSON_stringify (transactions (app w)))
  /\ (forall e : event,
        sets_transactions e (app w) = true ->
        localStorage (dispatch parseFloat JSON_stringify e w)
        = <["transactions"%string :=
              JSON_stringify
                (transactions (app (dispatch parseFloat JSON_stringify e w)))]>
            (localStorage w)).
Proof.
  intros H. split; [exact (reachable_persisted w H) | ].
  intros e He. unfold dispatch. simpl.
  rewrite He, (handle_keeps_darkMode e (app w) He), Bool.eqb_reflx.
  reflexivity.
Qed.

End PersistenceProofs.

Lemma coffee_world_reachable :
  reachable Decimal.parseFloat Decimal.JSON_stringify (fun _ => None) coffee_world.
Proof.
  unfold coffee_world. simpl fold_left.
  repeat (eapply reachable_step; [ | apply step_dispatch]).
  apply (reachable_mount _ _ _ ∅). reflexivity.
Qed.

(** C9 after mounting over an empty storage and entering one expense. *)
Lemma ledger_persisted_after_every_mutation_witness :
  transactions (app coffee_world) = [coffee]
  /\ localStorage coffee_world !! "transactions"%string
     = Some (Decimal.JSON_stringify [coffee]).
Proof.
  split; [reflexivity | ].
  apply (ledger_persisted_after_every_mutation
           Decimal.parseFloat Decimal.JSON_stringify (fun _ => None)
           coffee_world coffee_world_reachable).
Defined.

(** ** Dark mode, reload and what the page writes *)

Section Reload.

Variable parseFloat : string -> number.
Variable JSON_stringify : ledger -> string.
Variable JSON_parse : string -> option ledger.

Lemma run_effects_darkMode (tc dc : bool) (st : state) (sto : storage) :
  run_effects JSON_stringify tc dc st sto !! "darkMode"%string
  = if dc then Some (if darkMode st then "true" else "false")%string
    else sto !! "darkMode"%string.
Proof.
  unfold run_effects, save_transactions, save_darkMode.
  destruct tc, dc; rewrite ?lookup_insert_eq;
    rewrite ?lookup_insert_ne by discriminate; reflexivity.
Qed.

Lemma run_effects_other (tc dc : bool) (st : state) (sto : storage) (k : string) :
  k <> "transactions"%string -> k <> "darkMode"%string ->
  run_effects JSON_stringify tc dc st sto !! k = sto !! k.
Proof.
  intros Ht Hd. unfold run_effects, save_transactions, save_darkMode.
  destruct tc, dc; rewrite ?lookup_insert_ne by congruence; reflexivity.
Qed.

(** The stored flag is the one in memory. *)
Lemma dispatch_darkMode (e : event) (w : world) :
  localStorage w !! "darkMode"%string
  = Some (if darkMode (app w) then "true" else "false")%string ->
  localStorage (dispatch parseFloat JSON_stringify e w) !! "darkMode"%string
  = Some (if darkMode (app (dispatch parseFloat JSON_stringify e w))
          then "true" else "false")%string.
Proof.
  intros H. unfold dispatch. cbn [localStorage app].
  rewrite run_effects_darkMode.
  destruct (Bool.eqb _ _) eqn:E; simpl; [ | reflexivity].
  apply Bool.eqb_prop in E. now rewrite E.
Qed.

Lemma mount_darkMode (sto : storage) (w : world) :
  mount JSON_stringify JSON_parse sto = Some w ->
  localStorage w !! "darkMode"%string
  = Some (if darkMode (app w) then "true" else "false")%string.
Proof.
  unfold mount. intros H.
  destruct (loaded_state JSON_parse sto) as [[st set] | ]; [ | discriminate].
  injection H as <-. cbn [localStorage app].
  rewrite run_effects_darkMode.
  destruct (darkMode st); [reflexivity | ].
  unfold save_darkMode. now rewrite lookup_insert_eq.
Qed.

Lemma reachable_darkMode (w : world) :
  reachable parseFloat JSON_stringify JSON_parse w ->
  localStorage w !! "darkMode"%string
  = Some (if darkMode (app w) then "true" else "false")%string.
Proof.
  induction 1 as [sto w Hmount | w w' _ IH Hstep].
  - eapply mount_darkMode, Hmount.
  - destruct Hstep as [e w]. now apply dispatch_darkMode.
Qed.

(** X4. In every reachable state the storage key ["darkMode"] holds
    ["true"] or ["false"] as the flag in memory is set or not, and the load
    effect of the next visit reads the same flag back, whatever it makes of
    the stored ledger. *)
Theorem dark_mode_survives_reload (w : world) :
  reachable parseFloat JSON_stringify JSON_parse w ->
  localStorage w !! "darkMode"%string
  = Some (if darkMode (app w) then "true" else "false")%string
  /\ (forall (st : state) (set : bool),
        loaded_state JSON_parse (localStorage w) = Some (st, set) ->
        darkMode st = darkMode (app w)).
Proof.
  intros H. pose proof (reachable_darkMode w H) as Hd. split; [exact Hd | ].
  intros st set. unfold loaded_state. rewrite Hd.
  assert (Hread : String.eqb (if darkMode (app w) then "true" else "false") "true"
                  = darkMode (app w)) by (destruct (darkMode (app w)); reflexivity).
  rewrite Hread.
  destruct (localStorage w !! "transactions"%string) as [saved | ].
  - destruct (String.eqb saved ""); [intros [= <- _]; reflexivity | ].
    destruct (JSON_parse saved); [intros [= <- _]; reflexivity | discriminate].
  - intros [= <- _]. reflexivity.
Qed.

(** X5. Reloading the page from a reachable state: when [JSON.parse] reads
    the stored text back as the ledger [l], the page mounts with the ledger
    [l] and the same dark mode, with an empty form (the draft is lost), and
    the storage again holds the serialization of [l]. *)
Theorem reload_restores_the_ledger (w : world) (l : ledger) :
  reachable parseFloat JSON_stringify JSON_parse w ->
  JSON_stringify (transactions (app w)) <> ""%string ->
  JSON_parse (JSON_stringify (transactions (app w))) = Some l ->
  exists sto : storage,
    mount JSON_stringify JSON_parse (localStorage w)
    = Some (mkWorld (mkState l "" "" "Other" (darkMode (app w))) sto)
    /\ sto !! "transactions"%string = Some (JSON_stringify l)
    /\ sto !! "darkMode"%string
       = Some (if darkMode (app w) then "true" else "false")%string.
Proof.
  intros Hreach Hne Hparse.
  pose proof (reachable_persisted parseFloat JSON_stringify JSON_parse w Hreach)
    as Hp.
  pose proof (reachable_darkMode w Hreach) as Hd.
  unfold persisted in Hp.
  assert (Hload : loaded_state JSON_parse (localStorage w)
                  = Some (mkState l "" "" "Other" (darkMode (app w)), true)).
  { unfold loaded_state. rewrite Hp, Hd, (eqb_empty_false _ Hne), Hparse.
    destruct (darkMode (app w)); reflexivity. }
  unfold mount. rewrite Hload. eexists. split; [reflexivity | ].
  split.
  - now rewrite run_effects_transactions.
  - rewrite run_effects_darkMode. cbn [darkMode].
    destruct (darkMode (app w)); [reflexivity | ].
    unfold run_effects, save_darkMode. now rewrite lookup_insert_eq.
Qed.

(** X6. The page writes two storage keys and no other: an event, and
    mounting, leave every other key as it was. *)
Theorem other_keys_untouched (k : string) :
  k <> "transactions"%string -> k <> "darkMode"%string ->
  (forall (e : event) (w : world),
     localStorage (dispatch parseFloat JSON_stringify e w) !! k
     = localStorage w !! k)
  /\ (forall (sto : storage) (w : world),
        mount JSON_stringify JSON_parse sto = Some w ->
        localStorage w !! k = sto !! k).
Proof.
  intros Ht Hd. split.
  - intros e w. unfold dispatch. cbn [localStorage].
    now apply run_effects_other.
  - intros sto w. unfold mount.
    destruct (loaded_state JSON_parse sto) as [[st set] | ]; [ | discriminate].
    intros [= <-]. cbn [localStorage].
    rewrite run_effects_other by assumption.
    unfold save_darkMode, save_transactions.
    now rewrite !lookup_insert_ne by congruence.
Qed.

(** X7. An event that does not set the ledger and is not the dark-mode
    toggle (typing in the form, choosing a category, exporting, a rejected
    submit, a file picker closed without a file) writes nothing: the storage
    and the ledger are what they were. *)
Theorem drafts_are_not_persisted (e : event) (w : world) :
  sets_transactions e (app w) = false ->
  e <> ToggleDarkMode ->
  localStorage (dispatch parseFloat JSON_stringify e w) = localStorage w
  /\ transactions (app (dispatch parseFloat JSON_stringify e w))
     = transactions (app w)
  /\ darkMode (app (dispatch parseFloat JSON_stringify e w))
     = darkMode (app w).
Proof.
  intros Hset Htoggle.
  assert (Hdark : darkMode (handle parseFloat e (app w)) = darkMode (app w)).
  { destruct e as [ | | | | | [doc | ] | | ]; simpl in *;
      try discriminate; try reflexivity; try congruence.
    unfold handleAddTransaction. apply negb_false_iff in Hset.
    now rewrite Hset. }
  unfold dispatch. cbn [localStorage app].
  rewrite Hset, Hdark, Bool.eqb_reflx. repeat split.
  now apply handle_keeps_transactions.
Qed.

(** X8. Toggling the dark mode twice from a reachable state gives that
    state back, storage included. *)
Theorem toggle_twice (w : world) :
  reachable parseFloat JSON_stringify JSON_parse w ->
  dispatch parseFloat JSON_stringify ToggleDarkMode
    (dispatch parseFloat JSON_stringify ToggleDarkMode w)
  = w.
Proof.
  intros H. pose proof (reachable_darkMode w H) as Hd.
  destruct w as [[l d a c dark] sto]. simpl in Hd.
  unfold dispatch, run_effects, save_darkMode, toggleDarkMode.
  destruct dark; cbn; f_equal;
    rewrite insert_insert_eq; now apply insert_id.
Qed.

(** X9. A first visit.  Over a storage that holds nothing, or the empty
    text, under ["transactions"], the stored text is never parsed: the page
    comes up with the empty ledger and an empty form, in dark mode exactly
    when the storage held ["true"] under ["darkMode"], and it has written
    both keys: the serialization of the empty ledger and the dark mode. *)
Theorem first_visit_mounts_empty (sto : storage) :
  sto !! "transactions"%string = None
  \/ sto !! "transactions"%string = Some ""%string ->
  exists w : world,
    mount JSON_stringify JSON_parse sto = Some w
    /\ app w = mkState [] "" "" "Other" (saved_dark sto)
    /\ (saved_dark sto = true <-> sto !! "darkMode"%string = Some "true"%string)
    /\ localStorage w !! "transactions"%string = Some (JSON_stringify [])
    /\ localStorage w !! "darkMode"%string
       = Some (if saved_dark sto then "true" else "false")%string.
Proof.
  intros H.
  assert (Hload : loaded_state JSON_parse sto
                  = Some (mkState [] "" "" "Other" (saved_dark sto), false)).
  { unfold loaded_state, saved_dark. now destruct H as [-> | ->]. }
  unfold mount. rewrite Hload. eexists. split; [reflexivity | ].
  split; [reflexivity | ]. cbn [localStorage app darkMode]. split; [ | split].
  - unfold saved_dark. destruct (sto !! "darkMode"%string) as [v | ].
    + destruct (String.eqb_spec v "true") as [-> | Hne]; split;
        congruence.
    + split; discriminate.
  - rewrite run_effects_transactions.
    unfold run_effects, save_darkMode, save_transactions.
    rewrite lookup_insert_ne by discriminate. now rewrite lookup_insert_eq.
  - destruct (saved_dark sto).
    + unfold run_effects at 1, save_darkMode at 1. cbn [darkMode].
      now rewrite lookup_insert_eq.
    + unfold run_effects, save_darkMode, save_transactions.
      cbn [darkMode initial_state]. now rewrite lookup_insert_eq.
Qed.

End Reload.

Lemma coffee_world_reachable_any (JSON_parse : string -> option ledger) :
  reachable Decimal.parseFloat Decimal.JSON_stringify JSON_parse coffee_world.
Proof.
  unfold coffee_world. simpl fold_left.
  repeat (eapply reachable_step; [ | apply step_dispatch]).
  apply (reachable_mount _ _ _ ∅). reflexivity.
Qed.

(** X4 on the sample world. *)
Lemma dark_mode_survives_reload_witness :
  localStorage coffee_world !! "darkMode"%string = Some "false"%string.
Proof.
  apply (dark_mode_survives_reload Decimal.parseFloat Decimal.JSON_stringify
           coffee_parse coffee_world (coffee_world_reachable_any coffee_parse)).
Defined.

(** X5 on the sample world: the Coffee expense is back after a reload. *)
Lemma reload_restores_the_ledger_witness :
  exists sto : storage,
    mount Decimal.JSON_stringify coffee_parse (localStorage coffee_world)
    = Some (mkWorld (mkState [coffee] "" "" "Other" false) sto)
    /\ sto !! "transactions"%string = Some (Decimal.JSON_stringify [coffee])
    /\ sto !! "darkMode"%string = Some "false"%string.
Proof.
  apply (reload_restores_the_ledger Decimal.parseFloat Decimal.JSON_stringify
           coffee_parse coffee_world [coffee]
           (coffee_world_reachable_any coffee_parse)).
  - vm_compute. discriminate.
  - vm_compute. reflexivity.
Defined.

(** X6 on a storage that holds a key of another page. *)
Lemma other_keys_untouched_witness :
  localStorage
    (dispatch Decimal.parseFloat Decimal.JSON_stringify ToggleDarkMode
       (mkWorld sample_state {[ "theme"%string := "blue"%string ]}))
  !! "theme"%string
  = Some "blue"%string.
Proof.
  destruct (other_keys_untouched Decimal.parseFloat Decimal.JSON_stringify
              coffee_parse "theme") as [H _]; try discriminate.
  rewrite H. reflexivity.
Defined.

(** X7 on the sample world: typing a description stores nothing. *)
Lemma drafts_are_not_persisted_witness :
  localStorage
    (dispatch Decimal.parseFloat Decimal.JSON_stringify
       (SetDescription "Tea") coffee_world)
  = localStorage coffee_world.
Proof.
  apply (drafts_are_not_persisted Decimal.parseFloat Decimal.JSON_stringify
           (SetDescription "Tea") coffee_world); [reflexivity | discriminate].
Defined.

(** X8 on the sample world. *)
Lemma toggle_twice_witness :
  dispatch Decimal.parseFloat Decimal.JSON_stringify ToggleDarkMode
    (dispatch Decimal.parseFloat Decimal.JSON_stringify ToggleDarkMode
       coffee_world)
  = coffee_world.
Proof.
  apply (toggle_twice Decimal.parseFloat Decimal.JSON_stringify coffee_parse
           coffee_world (coffee_world_reachable_any coffee_parse)).
Defined.

(** X9 on a storage that holds the dark mode only. *)
Lemma first_visit_mounts_empty_witness :
  exists w : world,
    mount Decimal.JSON_stringify coffee_parse
      (<["darkMode"%string := "true"%string]> ∅)
    = Some w
    /\ app w = mkState [] "" "" "Other" true
    /\ localStorage w !! "transactions"%string = Some "[]"%string
    /\ localStorage w !! "darkMode"%string = Some "true"%string.
Proof.
  destruct (first_visit_mounts_empty Decimal.JSON_stringify coffee_parse
              (<["darkMode"%string := "true"%string]> ∅))
    as [w [Hm [Ha [_ [Ht Hd]]]]].
  - left. reflexivity.
  - exists w. repeat split; assumption.
Defined.

(** ** How the handlers compose *)

Section FilterIndex.

Context {A : Type}.

Lemma filter_index_ext (keep keep' : Z -> bool) (l : list A) : forall s,
  (forall k, keep k = keep' k) ->
  filter_index keep l s = filter_index keep' l s.
Proof.
  induction l as [ | x l IH]; intros s H; simpl; [reflexivity | ].
  rewrite H, (IH (s + 1) H). reflexivity.
Qed.

Lemma filter_index_shift (keep : Z -> bool) (d : Z) (l : list A) : forall s,
  filter_index (fun k => keep (k + d)) l s = filter_index keep l (s + d).
Proof.
  induction l as [ | x l IH]; intros s; simpl; [reflexivity | ].
  rewrite IH. replace (s + 1 + d) with (s + d + 1) by lia. reflexivity.
Qed.

Lemma filter_index_above (index : Z) (l : list A) (s : Z) :
  index < s -> filter_index (fun k => negb (k =? index)) l s = l.
Proof.
  intros H. apply filter_index_all.
  intros k Hk. apply negb_true_iff, Z.eqb_neq. lia.
Qed.

Lemma filter_index_commute (i j : Z) (l : list A) : forall s,
  s <= j < i ->
  filter_index (fun k => negb (k =? j))
    (filter_index (fun k => negb (k =? i)) l s) s
  = filter_index (fun k => negb (k =? i - 1))
      (filter_index (fun k => negb (k =? j)) l s) s.
Proof.
  induction l as [ | x l IH]; intros s H; simpl; [reflexivity | ].
  destruct (Z.eqb_spec s i) as [ | _]; [lia | ]. simpl negb. cbv iota.
  destruct (Z.eqb_spec s j) as [-> | Hsj]; simpl.
  - rewrite Z.eqb_refl. simpl.
    rewrite (filter_index_above j (filter_index _ l (j + 1)) (j + 1)) by lia.
    rewrite (filter_index_above j l (j + 1)) by lia.
    rewrite <- (filter_index_shift (fun k => negb (k =? i)) 1 l j).
    apply filter_index_ext. intros k.
    f_equal. destruct (Z.eqb_spec (k + 1) i), (Z.eqb_spec k (i - 1)); lia || reflexivity.
  - destruct (Z.eqb_spec s j) as [ | _]; [contradiction | ].
    destruct (Z.eqb_spec s (i - 1)) as [ | _]; [lia | ]. simpl.
    f_equal. apply IH. lia.
Qed.

Lemma Forall_filter_index (P : A -> Prop) (keep : Z -> bool) (l : list A) :
  forall s, Forall P l -> Forall P (filter_index keep l s).
Proof.
  induction l as [ | x l IH]; intros s H; simpl; [constructor | ].
  inversion H; subst. destruct (keep s); [constructor | ]; auto.
Qed.

End FilterIndex.

Lemma income_app (l : ledger) (tx : transaction) :
  income (l ++ [tx])
  = if gt (Tx.amount tx) zero then add (income l) (Tx.amount tx) else income l.
Proof.
  unfold income. rewrite List.filter_app. simpl.
  destruct (gt (Tx.amount tx) zero).
  - now rewrite fold_left_app.
  - now rewrite app_nil_r.
Qed.

Lemma expenses_app (l : ledger) (tx : transaction) :
  expenses (l ++ [tx])
  = if lt (Tx.amount tx) zero then add (expenses l) (Tx.amount tx) else expenses l.
Proof.
  unfold expenses. rewrite List.filter_app. simpl.
  destruct (lt (Tx.amount tx) zero).
  - now rewrite fold_left_app.
  - now rewrite app_nil_r.
Qed.

Lemma not_both_signs (x : number) : gt x zero = true -> lt x zero = false.
Proof. destruct x as [s | [ | ] | | [ | ] m e]; simpl; auto; discriminate. Qed.

Lemma field_absent (header l : Papa.line) (n : string) :
  ~ In n header -> Papa.field header l n = None.
Proof.
  revert l. induction header as [ | h header IH]; intros l H; simpl.
  - reflexivity.
  - destruct l as [ | v l]; [reflexivity | ].
    destruct (String.eqb_spec h n) as [-> | _]; [simpl in H; tauto | ].
    apply IH. simpl in H. tauto.
Qed.

Lemma option_not_blank (c : string) : In c category_options -> c <> ""%string.
Proof.
  unfold category_options. simpl.
  intros [<- | [<- | [<- | [<- | [<- | [<- | []]]]]]]; discriminate.
Qed.

Lemma category_or_Other_not_blank (f : option string) :
  category_or_Other f <> ""%string.
Proof.
  unfold category_or_Other. destruct f as [c | ]; [ | discriminate].
  destruct (String.eqb_spec c ""); [discriminate | assumption].
Qed.

Section Composition.

Variable parseFloat : string -> number.
Variable numberToString : number -> string.

(** X10. Deleting the last row right after an accepted submit gives the
    ledger back as it was before the submit. *)
Theorem add_then_delete_last (st : state) :
  description st <> ""%string -> amount st <> ""%string ->
  transactions
    (handleDeleteTransaction (Z.of_nat (length (transactions st)))
       (handleAddTransaction parseFloat st))
  = transactions st.
Proof.
  intros Hd Ha. unfold handleAddTransaction.
  rewrite (eqb_empty_false _ Hd), (eqb_empty_false _ Ha). simpl.
  rewrite (filter_index_remove _ _ 0) by (rewrite length_app; simpl; lia).
  rewrite Z.sub_0_r, Nat2Z.id, take_app_length.
  rewrite drop_ge by (rewrite length_app; simpl; lia).
  apply app_nil_r.
Qed.

(** X11. Two deletions can be done in either order once the index is
    adjusted: deleting row [i] and then row [j < i] is deleting row [j] and
    then row [i - 1]. *)
Theorem delete_twice_commutes (i j : Z) (st : state) :
  0 <= j < i ->
  handleDeleteTransaction j (handleDeleteTransaction i st)
  = handleDeleteTransaction (i - 1) (handleDeleteTransaction j st).
Proof.
  intros H. unfold handleDeleteTransaction. simpl.
  now rewrite filter_index_commute.
Qed.

(** X12. What an accepted submit does to the totals, [a] being the parsed
    amount: the income becomes [income + a] when [a > 0] and stays
    otherwise, the expenses become [expenses + a] when [a < 0] and stay
    otherwise.  So an income leaves the expenses alone, an expense leaves
    the income alone, and an amount that is neither (zero, [NaN]) changes no
    total. *)
Theorem totals_after_add (st : state) :
  description st <> ""%string -> amount st <> ""%string ->
  income (transactions (handleAddTransaction parseFloat st))
  = (if gt (parseFloat (amount st)) zero
     then add (income (transactions st)) (parseFloat (amount st))
     else income (transactions st))
  /\ expenses (transactions (handleAddTransaction parseFloat st))
     = (if lt (parseFloat (amount st)) zero
        then add (expenses (transactions st)) (parseFloat (amount st))
        else expenses (transactions st))
  /\ (gt (parseFloat (amount st)) zero = true ->
      expenses (transactions (handleAddTransaction parseFloat st))
      = expenses (transactions st))
  /\ (lt (parseFloat (amount st)) zero = true ->
      income (transactions (handleAddTransaction parseFloat st))
      = income (transactions st))
  /\ (gt (parseFloat (amount st)) zero = false ->
      lt (parseFloat (amount st)) zero = false ->
      balance (transactions (handleAddTransaction parseFloat st))
      = balance (transactions st)).
Proof.
  intros Hd Ha. unfold handleAddTransaction, balance.
  rewrite (eqb_empty_false _ Hd), (eqb_empty_false _ Ha). simpl.
  rewrite income_app, expenses_app. simpl.
  repeat split.
  - intros H. now rewrite (not_both_signs _ H).
  - intros H. destruct (gt (parseFloat (amount st)) zero) eqn:E; [ | reflexivity].
    apply not_both_signs in E. congruence.
  - intros -> ->. reflexivity.
Qed.

(** X13. An import makes one record of every line after the header and
    skips none: the new ledger has as many records as the document has data
    lines.  A document that is empty or has only its header empties the
    ledger. *)
Theorem import_keeps_every_line (doc : Papa.document) (st : state) :
  length (transactions (handleImportCSV parseFloat (Some doc) st))
  = (length doc - 1)%nat
  /\ ((length doc <= 1)%nat ->
      transactions (handleImportCSV parseFloat (Some doc) st) = []).
Proof.
  destruct doc as [ | header lines]; simpl; [split; reflexivity | ].
  rewrite !length_map. split; [lia | ].
  intros H. destruct lines; [reflexivity | simpl in H; lia].
Qed.

(** X14. Columns are found by their exact header name.  When the header
    line has no ["category"] every imported record is filed under
    ["Other"]; when it has no ["amount"] every amount is what [parseFloat]
    makes of ["undefined"]; when it has no ["description"] every description
    is [undefined]. *)
Theorem import_with_missing_columns (header : Papa.line)
    (lines : list Papa.line) (st : state) :
  (~ In "category"%string header ->
   Forall (fun tx => Tx.category tx = "Other"%string)
     (transactions (handleImportCSV parseFloat (Some (header :: lines)) st)))
  /\ (~ In "amount"%string header ->
      Forall (fun tx => Tx.amount tx = parseFloat "undefined")
        (transactions (handleImportCSV parseFloat (Some (header :: lines)) st)))
  /\ (~ In "description"%string header ->
      Forall (fun tx => Tx.description tx = None)
        (transactions (handleImportCSV parseFloat (Some (header :: lines)) st))).
Proof.
  simpl. repeat split; intros H; apply Forall_map, Forall_map, Forall_forall;
    intros l _; unfold imported_transaction; simpl;
    now rewrite (field_absent header l _ H).
Qed.

Lemma handle_categories_in_order (e : event) (st : state) :
  from_the_page e -> categories_in_order st ->
  categories_in_order (handle parseFloat e st).
Proof.
  intros He [Hl Hc]. unfold categories_in_order.
  destruct e as [v | v | v | | index | [doc | ] | | ]; simpl in *; auto.
  - unfold handleAddTransaction.
    destruct (String.eqb (description st) "" || String.eqb (amount st) "");
      simpl; [auto | ].
    split; [ | now left].
    apply Forall_app. split; [assumption | ].
    constructor; [ | constructor]. simpl. now apply option_not_blank.
  - split; [ | assumption]. now apply Forall_filter_index.
  - split; [ | assumption]. apply Forall_map, Forall_forall.
    intros r _. apply category_or_Other_not_blank.
Qed.

Lemma run_categories_in_order (events : list event) : forall st : state,
  Forall from_the_page events -> categories_in_order st ->
  categories_in_order (run parseFloat events st).
Proof.
  unfold run.
  induction events as [ | e events IH]; intros st He Hst; simpl; [assumption | ].
  inversion He; subst. apply IH; [assumption | ].
  now apply handle_categories_in_order.
Qed.

(** X15. Whatever is done on the page (any texts typed, any documents
    imported, any rows deleted, categories chosen from the select), no
    record of the ledger ever has a blank category and the category cell
    holds one of the six options; hence exporting that ledger and importing
    the document back gives as many records, with the same categories in the
    same order. *)
Theorem page_ledgers_keep_their_categories (events : list event) (st' : state) :
  Forall from_the_page events ->
  Forall (fun tx => Tx.category tx <> ""%string)
    (transactions (run parseFloat events initial_state))
  /\ In (category (run parseFloat events initial_state)) category_options
  /\ map Tx.category
       (transactions
          (handleImportCSV parseFloat
             (Some (handleExportCSV numberToString
                      (run parseFloat events initial_state))) st'))
     = map Tx.category (transactions (run parseFloat events initial_state)).
Proof.
  intros He.
  destruct (run_categories_in_order events initial_state He) as [Hl Hc].
  { split; [constructor | now left]. }
  split; [exact Hl | split; [exact Hc | ]].
  unfold handleExportCSV. simpl.
  rewrite parse_unparse, !map_map. simpl.
  induction Hl as [ | tx l Htx _ IH]; simpl; [reflexivity | ].
  rewrite IH. f_equal. now rewrite (eqb_empty_false _ Htx).
Qed.

End Composition.

(** X10 on the sample state, with a Tea expense typed in the form. *)
Lemma add_then_delete_last_witness :
  transactions
    (handleDeleteTransaction 3
       (handleAddTransaction Decimal.parseFloat
          (mkState [coffee; paycheck; rent] "Tea" "-3" "Food" false)))
  = [coffee; paycheck; rent].
Proof.
  apply (add_then_delete_last Decimal.parseFloat
           (mkState [coffee; paycheck; rent] "Tea" "-3" "Food" false));
    discriminate.
Defined.

(** X11 on the sample state: rows 2 and 0, in both orders. *)
Lemma delete_twice_commutes_witness :
  handleDeleteTransaction 0 (handleDeleteTransaction 2 sample_state)
  = handleDeleteTransaction 1 (handleDeleteTransaction 0 sample_state).
Proof.
  apply (delete_twice_commutes 2 0 sample_state). lia.
Defined.

(** X12 on the sample state, with a Tea expense typed in the form. *)
Lemma totals_after_add_witness :
  income
    (transactions
       (handleAddTransaction Decimal.parseFloat
          (mkState [coffee; paycheck; rent] "Tea" "-3" "Food" false)))
  = income [coffee; paycheck; rent].
Proof.
  destruct (totals_after_add Decimal.parseFloat
              (mkState [coffee; paycheck; rent] "Tea" "-3" "Food" false))
    as [_ [_ [_ [H _]]]]; try discriminate.
  apply H. vm_compute. reflexivity.
Defined.

(** X15 on the Coffee and Paycheck scenario. *)
Lemma page_ledgers_keep_their_categories_witness :
  map Tx.category
    (transactions
       (handleImportCSV Decimal.parseFloat
          (Some (handleExportCSV Decimal.numberToString
                   (run Decimal.parseFloat coffee_then_paycheck initial_state)))
          initial_state))
  = ["Food"; "Salary"]%string.
Proof.
  destruct (page_ledgers_keep_their_categories Decimal.parseFloat
              Decimal.numberToString coffee_then_paycheck initial_state)
    as [_ [_ H]].
  - unfold coffee_then_paycheck, category_options.
    repeat (apply List.Forall_cons; [simpl; tauto | ]). apply List.Forall_nil.
  - rewrite H. vm_compute. reflexivity.
Defined.

(** ** The chart as it is drawn *)

Section Chart.

Lemma length_define_pos (o : Obj.object) (k : string) (v : Obj.value) :
  (0 <? length (Obj.define o k v))%nat = true.
Proof.
  destruct o as [ | [k1 v1] o]; simpl; [reflexivity | ].
  destruct (String.eqb k1 k); reflexivity.
Qed.

Lemma nonempty_set (o : Obj.object) (k : string) (v : Obj.value) :
  (0 <? length (Obj.set o k v))%nat
  = (0 <? length o)%nat || negb (String.eqb k "__proto__").
Proof.
  unfold Obj.set. destruct (String.eqb k "__proto__"); simpl.
  - now rewrite orb_false_r.
  - now rewrite length_define_pos, orb_true_r.
Qed.

Lemma nonempty_expense_reducer (acc : Obj.object) (tx : transaction) :
  (0 <? length (expense_reducer acc tx))%nat
  = (0 <? length acc)%nat || negb (String.eqb (Tx.category tx) "__proto__").
Proof.
  unfold expense_reducer. destruct (Obj.truthy _); apply nonempty_set.
Qed.

Lemma nonempty_fold_expense_reducer (txs : ledger) : forall acc : Obj.object,
  (0 <? length (fold_left expense_reducer txs acc))%nat
  = (0 <? length acc)%nat
    || existsb (fun tx => negb (String.eqb (Tx.category tx) "__proto__")) txs.
Proof.
  induction txs as [ | tx txs IH]; intros acc; simpl.
  - now rewrite orb_false_r.
  - now rewrite IH, nonempty_expense_reducer, orb_assoc.
Qed.

Lemma existsb_filter {A : Type} (p q : A -> bool) (l : list A) :
  existsb p (List.filter q l) = existsb (fun x => q x && p x) l.
Proof.
  induction l as [ | x l IH]; simpl; [reflexivity | ].
  destruct (q x); simpl; now rewrite IH.
Qed.

Lemma length_chartData (transactions : ledger) :
  length (chartData transactions) = length (expenseByCategory transactions).
Proof.
  unfold chartData. rewrite length_map.
  rewrite (Permutation_length (keys_Permutation _)). apply length_map.
Qed.

(** X16. The pie chart is rendered exactly when the ledger has an amount
    below zero whose category is not ["__proto__"]; a ledger without
    expenses shows no chart. *)
Theorem pie_chart_rendered (transactions : ledger) :
  chart_rendered transactions
  = existsb (fun tx => lt (Tx.amount tx) zero
                       && negb (String.eqb (Tx.category tx) "__proto__"))
      transactions.
Proof.
  unfold chart_rendered. rewrite length_chartData.
  unfold expenseByCategory.
  rewrite nonempty_fold_expense_reducer. simpl.
  apply existsb_filter.
Qed.

Lemma own_set_origin (o : Obj.object) (k c : string) (v : Obj.value) :
  Obj.own (Obj.set o k v) c <> None -> Obj.own o c <> None \/ k = c.
Proof.
  unfold Obj.set. destruct (String.eqb k "__proto__"); [auto | ].
  rewrite own_define. destruct (String.eqb_spec k c); auto.
Qed.

Lemma own_expense_reducer_origin (acc : Obj.object) (tx : transaction) (c : string) :
  Obj.own (expense_reducer acc tx) c <> None ->
  Obj.own acc c <> None \/ Tx.category tx = c.
Proof.
  unfold expense_reducer. destruct (Obj.truthy _); apply own_set_origin.
Qed.

Lemma own_fold_origin (txs : ledger) (c : string) : forall acc : Obj.object,
  Obj.own (fold_left expense_reducer txs acc) c <> None ->
  Obj.own acc c <> None \/ exists tx, In tx txs /\ Tx.category tx = c.
Proof.
  induction txs as [ | tx txs IH]; intros acc H; simpl in *; [auto | ].
  destruct (IH _ H) as [H1 | [tx' [Hin Hc]]].
  - destruct (own_expense_reducer_origin acc tx c H1) as [? | ?]; eauto.
  - eauto.
Qed.

Lemma NoDup_expenseByCategory (transactions : ledger) :
  List.NoDup (map fst (expenseByCategory transactions)).
Proof. apply NoDup_fold_expense_reducer. constructor. Qed.

(** A chart name is the category of an expense of the ledger. *)
Lemma chart_name_origin (transactions : ledger) (e : chart_entry) :
  In e (chartData transactions) ->
  Obj.own (expenseByCategory transactions) (name e) <> None
  /\ value e = Obj.get (expenseByCategory transactions) (name e)
  /\ exists tx, In tx transactions
                /\ lt (Tx.amount tx) zero = true
                /\ Tx.category tx = name e.
Proof.
  unfold chartData. intros H. apply in_map_iff in H as [k [<- Hk]]. simpl.
  assert (Hown : Obj.own (expenseByCategory transactions) k <> None).
  { apply In_keys_own. eapply Permutation_in; [apply keys_Permutation | exact Hk]. }
  split; [exact Hown | split; [reflexivity | ]].
  destruct (own_fold_origin _ k [] Hown) as [H0 | [tx [Hin Hc]]];
    [simpl in H0; congruence | ].
  apply List.filter_In in Hin as [Hin Hlt]. eauto.
Qed.

Lemma own_expenseByCategory (c : string) (transactions : ledger) :
  Obj.inherited c = false ->
  Forall (fun tx => valid (Tx.amount tx) = true) transactions ->
  Obj.own (expenseByCategory transactions) c
  = match expenses_in c transactions with
    | [] => None
    | _ :: _ => Some (Obj.VNumber (category_total c transactions))
    end.
Proof.
  intros Hc Hvalid. unfold expenseByCategory.
  pose proof (Forall_filter_expenses transactions Hvalid) as Hall.
  rewrite (fold_expense_reducer c Hc _ [] Hall) by (left; reflexivity).
  rewrite filter_category_of_expenses. simpl Obj.own.
  rewrite fold_bump_from_nothing.
  - unfold category_total. destruct (expenses_in c transactions); reflexivity.
  - rewrite <- filter_category_of_expenses. apply Forall_map.
    revert Hall.
    generalize (List.filter (fun tx => lt (Tx.amount tx) zero) transactions).
    induction 1 as [ | tx l Htx _ IH]; simpl; [constructor | ].
    destruct (String.eqb (Tx.category tx) c); [constructor | ]; assumption.
Qed.

Lemma fold_add_nonzero (xs : list number) : forall acc : number,
  Forall (nonzero_of_sign false) xs ->
  (exists s, acc = S754_zero s) \/ nonzero_of_sign false acc ->
  xs <> [] \/ nonzero_of_sign false acc ->
  nonzero_of_sign false (fold_left add xs acc).
Proof.
  induction xs as [ | x xs IH]; intros acc Hall Hacc Hne; simpl.
  - destruct Hne as [Hne | Hne]; [contradiction | assumption].
  - inversion Hall; subst.
    assert (Hstep : nonzero_of_sign false (add acc x))
      by (now apply add_nonzero_of_sign).
    apply IH; auto.
Qed.

Lemma nonzero_positive (x : number) : nonzero_of_sign false x -> gt x zero = true.
Proof.
  destruct x as [s | s | | s m e]; simpl; try tauto.
  - intros ->. reflexivity.
  - intros [-> _]. reflexivity.
Qed.

Lemma category_total_positive (c : string) (transactions : ledger) :
  Forall (fun tx => valid (Tx.amount tx) = true) transactions ->
  expenses_in c transactions <> [] ->
  gt (category_total c transactions) zero = true.
Proof.
  intros Hvalid Hne. apply nonzero_positive. unfold category_total.
  apply fold_add_nonzero.
  - apply Forall_map. unfold expenses_in. clear Hne.
    induction Hvalid as [ | tx l Htx _ IH]; simpl; [constructor | ].
    destruct (lt (Tx.amount tx) zero) eqn:E; simpl; [ | exact IH].
    destruct (String.eqb (Tx.category tx) c); [ | exact IH].
    constructor; [ | exact IH]. now apply abs_of_negative_double.
  - left. now exists false.
  - left. intros H. apply Hne. now apply map_eq_nil in H.
Qed.

(** X17. On a ledger of doubles whose expenses are filed under names that
    plain objects do not inherit, every chart entry is the total of a
    category that has expenses: its value is the sum of the absolute values
    of the expenses of its name, and that sum is above zero (no empty or
    negative slice). *)
Theorem chart_entries_are_positive_totals (transactions : ledger) :
  Forall (fun tx => valid (Tx.amount tx) = true) transactions ->
  (forall tx, In tx transactions -> lt (Tx.amount tx) zero = true ->
              Obj.inherited (Tx.category tx) = false) ->
  Forall (fun e =>
            expenses_in (name e) transactions <> []
            /\ value e = Obj.VNumber (category_total (name e) transactions)
            /\ gt (category_total (name e) transactions) zero = true)
    (chartData transactions).
Proof.
  intros Hvalid Hnames. apply Forall_forall. intros e He.
  apply list_elem_of_In in He.
  destruct (chart_name_origin transactions e He)
    as [Hown [Hval [tx [Hin [Hlt Hc]]]]].
  assert (Hinh : Obj.inherited (name e) = false) by (rewrite <- Hc; auto).
  rewrite (own_expenseByCategory _ _ Hinh Hvalid) in Hown.
  assert (Hne : expenses_in (name e) transactions <> [])
    by (destruct (expenses_in (name e) transactions); congruence).
  split; [exact Hne | split].
  - rewrite Hval. unfold Obj.get.
    rewrite (own_expenseByCategory _ _ Hinh Hvalid).
    destruct (expenses_in (name e) transactions); [contradiction | reflexivity].
  - now apply category_total_positive.
Qed.

Lemma chart_names_in_options (transactions : ledger) :
  (forall tx, In tx transactions -> lt (Tx.amount tx) zero = true ->
              In (Tx.category tx) category_options) ->
  incl (map name (chartData transactions)) category_options.
Proof.
  intros H n Hn. apply in_map_iff in Hn as [e [<- He]].
  destruct (chart_name_origin transactions e He) as [_ [_ [tx [Hin [Hlt <-]]]]].
  auto.
Qed.

Lemma NoDup_chart_names (transactions : ledger) :
  List.NoDup (map name (chartData transactions)).
Proof.
  unfold chartData. rewrite map_map. simpl. rewrite map_id.
  eapply Permutation_NoDup; [symmetry; apply keys_Permutation | ].
  apply NoDup_expenseByCategory.
Qed.

Lemma palette_fill_inj (i j : nat) :
  (i < 6)%nat -> (j < 6)%nat -> palette_fill i = palette_fill j -> i = j.
Proof.
  intros Hi Hj.
  destruct i as [ | [ | [ | [ | [ | [ | i]]]]]]; try lia;
    destruct j as [ | [ | [ | [ | [ | [ | j]]]]]]; try lia;
    vm_compute; congruence.
Qed.

Lemma palette_fill_defined (i : nat) :
  exists c, palette_fill i = Some c /\ In c COLORS.
Proof.
  unfold palette_fill.
  assert (H : (i mod length COLORS < length COLORS)%nat)
    by (apply Nat.mod_upper_bound; discriminate).
  destruct (lookup_lt_is_Some_2 COLORS _ H) as [c Hc].
  exists c. split; [exact Hc | ].
  apply list_elem_of_In. eapply list_elem_of_lookup_2, Hc.
Qed.

(** X18. The position palette of the plain page: a slice always gets one of
    the six colours (never [undefined]), and when the expenses of the ledger
    use only the categories of the form the chart has at most six slices
    and no two of them share a colour. *)
Theorem palette_gives_distinct_colours (transactions : ledger) :
  (forall tx, In tx transactions -> lt (Tx.amount tx) zero = true ->
              In (Tx.category tx) category_options) ->
  Forall (fun f => exists c, f = Some c /\ In c COLORS)
    (palette_fills (chartData transactions))
  /\ (length (chartData transactions) <= 6)%nat
  /\ List.NoDup (palette_fills (chartData transactions)).
Proof.
  intros H.
  assert (Hlen : (length (chartData transactions) <= 6)%nat).
  { rewrite <- (length_map name).
    apply (List.NoDup_incl_length (NoDup_chart_names transactions)
             (chart_names_in_options transactions H)). }
  split; [ | split; [exact Hlen | ]].
  - apply Forall_forall. intros f Hf.
    apply list_elem_of_lookup in Hf as [i Hi].
    apply list_lookup_imap_Some in Hi as [e [_ ->]].
    apply palette_fill_defined.
  - apply (proj1 (NoDup_ListNoDup _)), (proj2 (NoDup_alt _)).
    intros i j f Hi Hj.
    apply list_lookup_imap_Some in Hi as [e [Hi ->]].
    apply list_lookup_imap_Some in Hj as [e' [Hj Heq]].
    apply lookup_lt_Some in Hi, Hj.
    apply palette_fill_inj; [lia | lia | exact Heq].
Qed.

Lemma category_fill_option (n : string) :
  In n category_options ->
  exists c, category_fill n = Colour c /\ In (n, c) CATEGORY_COLORS.
Proof.
  unfold category_options. simpl.
  intros [<- | [<- | [<- | [<- | [<- | [<- | []]]]]]];
    eexists; (split; [vm_compute; reflexivity | simpl; tauto]).
Qed.

Lemma category_fill_inj (n n' : string) :
  In n category_options -> In n' category_options ->
  category_fill n = category_fill n' -> n = n'.
Proof.
  unfold category_options. simpl.
  intros [<- | [<- | [<- | [<- | [<- | [<- | []]]]]]]
         [<- | [<- | [<- | [<- | [<- | [<- | []]]]]]];
    vm_compute; congruence.
Qed.

(** X19. The colour table of the decorated page: when the expenses of the
    ledger use only the categories of the form, every slice is filled with
    the colour the table gives its name, and no two slices share a
    colour. *)
Theorem table_gives_distinct_colours (transactions : ledger) :
  (forall tx, In tx transactions -> lt (Tx.amount tx) zero = true ->
              In (Tx.category tx) category_options) ->
  Forall2 (fun e f => exists c, f = Colour c /\ In (name e, c) CATEGORY_COLORS)
    (chartData transactions) (category_fills (chartData transactions))
  /\ List.NoDup (category_fills (chartData transactions)).
Proof.
  intros H. pose proof (chart_names_in_options transactions H) as Hincl.
  pose proof (NoDup_chart_names transactions) as Hnd.
  unfold category_fills. split.
  - revert Hincl. generalize (chartData transactions).
    induction l as [ | e l IH]; simpl; intros Hincl; constructor.
    + apply category_fill_option, Hincl. now left.
    + apply IH. intros n Hn. apply Hincl. now right.
  - rewrite <- (map_map name category_fill).
    apply (proj1 (NoDup_ListNoDup _)), NoDup_fmap_2_strong;
      [ | apply (proj2 (NoDup_ListNoDup _)), Hnd].
    intros n n' Hn Hn'. apply list_elem_of_In in Hn, Hn'.
    apply category_fill_inj; auto.
Qed.

End Chart.

(** X17 on the sample ledger: Food 4.5 and Rent 850.25. *)
Lemma chart_entries_are_positive_totals_witness :
  Forall (fun e => gt (category_total (name e) [coffee; paycheck; rent]) zero = true)
    (chartData [coffee; paycheck; rent]).
Proof.
  eapply Forall_impl;
    [apply (chart_entries_are_positive_totals [coffee; paycheck; rent]) | ].
  - repeat (apply List.Forall_cons; [vm_compute; reflexivity | ]).
    apply List.Forall_nil.
  - intros tx [<- | [<- | [<- | []]]]; intros _; reflexivity.
  - intros e [_ [_ H]]. exact H.
Defined.

(** X18 on the sample ledger. *)
Lemma palette_gives_distinct_colours_witness :
  List.NoDup (palette_fills (chartData [coffee; paycheck; rent])).
Proof.
  apply (palette_gives_distinct_colours [coffee; paycheck; rent]).
  intros tx [<- | [<- | [<- | []]]]; intros _; simpl; tauto.
Defined.

(** X19 on the sample ledger. *)
Lemma table_gives_distinct_colours_witness :
  List.NoDup (category_fills (chartData [coffee; paycheck; rent])).
Proof.
  apply (table_gives_distinct_colours [coffee; paycheck; rent]).
  intros tx [<- | [<- | [<- | []]]]; intros _; simpl; tauto.
Defined.

(** ** Ledgers entered through the form only *)

Section FormOnly.

Variable parseFloat : string -> number.

Lemma handle_entered_by_form (e : event) (st : state) :
  from_the_page e -> not_an_import e -> entered_by_form st ->
  entered_by_form (handle parseFloat e st).
Proof.
  intros He Hi [Hl Hc]. unfold entered_by_form.
  destruct e as [v | v | v | | index | [doc | ] | | ]; simpl in *; auto;
    try contradiction.
  - unfold handleAddTransaction.
    destruct (String.eqb_spec (description st) "") as [ | Hd]; simpl; [auto | ].
    destruct (String.eqb (amount st) ""); simpl; [auto | ].
    split; [ | now left].
    apply Forall_app. split; [assumption | ].
    constructor; [ | constructor]. simpl. split; [ | assumption].
    now exists (description st).
  - split; [ | assumption]. now apply Forall_filter_index.
Qed.

(** X20. As long as no document is imported, every record of the ledger
    was made by an accepted submit: it has a description that is a
    non-empty string and one of the six categories of the select, whatever
    was typed, submitted and deleted on the way. *)
Theorem form_ledgers_are_well_formed (events : list event) :
  Forall from_the_page events -> Forall not_an_import events ->
  Forall (fun tx => (exists d, Tx.description tx = Some d /\ d <> ""%string)
                    /\ In (Tx.category tx) category_options)
    (transactions (run parseFloat events initial_state)).
Proof.
  intros Hp Hi.
  assert (H : entered_by_form initial_state) by (split; [constructor | now left]).
  revert H. unfold run. generalize initial_state.
  induction events as [ | e events IH]; intros st Hst; simpl; [apply Hst | ].
  inversion Hp; inversion Hi; subst.
  apply IH; try assumption. now apply handle_entered_by_form.
Qed.

End FormOnly.

(** X20 on the Coffee and Paycheck scenario. *)
Lemma form_ledgers_are_well_formed_witness :
  Forall (fun tx => (exists d, Tx.description tx = Some d /\ d <> ""%string)
                    /\ In (Tx.category tx) category_options)
    (transactions (run Decimal.parseFloat coffee_then_paycheck initial_state)).
Proof.
  apply (form_ledgers_are_well_formed Decimal.parseFloat coffee_then_paycheck);
    unfold coffee_then_paycheck, category_options;
    repeat (apply List.Forall_cons; [simpl; tauto | ]); apply List.Forall_nil.
Defined.
